(** * MeetupClient: the event aggregation and relevance-ranking pipeline

    A shallow embedding of the [MeetupClient] class (fetch, geo-enrich,
    optional scoring, sort) together with the JavaScript primitives it
    relies on, and the properties of the pipeline stated against it. *)

From Stdlib Require Import ZArith List String Ascii Bool Lia.
From Stdlib Require Import Sorted Permutation.
From Stdlib Require Import Floats.PrimFloat.
Import ListNotations.

Local Open Scope string_scope.
Local Open Scope Z_scope.

(** ** JavaScript primitives used by the client *)

Module JS.

(** *** Numbers

    Counts and scores are JavaScript numbers that are either [NaN], an
    infinity, or an integer-valued double: they come from [parseInt] or from
    integer counts of the feed.  [Int z] stands for the double whose value is
    the integer [z]; [-0] is identified with [Int 0] (both are falsy, and the
    only arithmetic applied to a score is the subtraction of the sort
    comparator, whose sign does not tell them apart).  Coordinates and
    distances are arbitrary doubles and use the primitive [float]. *)

Inductive number : Type :=
| NaN
| Infinity (negative : bool)
| Int (z : Z).

(** The Number value for a mathematical integer: round to nearest double,
    ties to even, overflowing to an infinity. *)
Definition toNumber (z : Z) : number :=
  let a := Z.abs z in
  if a <? 2 ^ 53 then Int z
  else
    let e := Z.log2 a - 52 in
    let q := a / 2 ^ e in
    let r := a mod 2 ^ e in
    let half := 2 ^ (e - 1) in
    let q' := if (half <? r) || ((r =? half) && Z.odd q) then q + 1 else q in
    let v := q' * 2 ^ e in
    if 2 ^ 1024 <=? v then Infinity (z <? 0) else Int (Z.sgn z * v).

(** ToBoolean on a number. *)
Definition truthy (n : number) : bool :=
  match n with
  | NaN => false
  | Infinity _ => true
  | Int z => negb (z =? 0)
  end.

(** [x || d] for an optional number [x] ([undefined] and [null] are falsy). *)
Definition orNumber (x : option number) (d : number) : number :=
  match x with
  | Some n => if truthy n then n else d
  | None => d
  end.

(** [x || undefined] for a nullable number [x]. *)
Definition orUndefined (x : option number) : option number :=
  match x with
  | Some n => if truthy n then Some n else None
  | None => None
  end.

(** [0 < n], the test a sort applies to the value of its comparator. *)
Definition isPositive (n : number) : bool :=
  match n with
  | NaN => false
  | Infinity s => negb s
  | Int z => 0 <? z
  end.

(** [a - b]. *)
Definition sub (a b : number) : number :=
  match a, b with
  | NaN, _ => NaN
  | _, NaN => NaN
  | Infinity s, Infinity t => if Bool.eqb s t then NaN else Infinity s
  | Infinity s, Int _ => Infinity s
  | Int _, Infinity t => Infinity (negb t)
  | Int x, Int y => toNumber (x - y)
  end.

(** [a >= b]. *)
Definition ge (a b : number) : bool :=
  match a, b with
  | NaN, _ => false
  | _, NaN => false
  | Infinity s, Infinity t => implb s t
  | Infinity s, Int _ => negb s
  | Int _, Infinity t => t
  | Int x, Int y => y <=? x
  end.

(** [0 <= n && n <= 100 && Number.isInteger(n)]. *)
Definition isPercentage (n : number) : bool :=
  match n with
  | Int z => (0 <=? z) && (z <=? 100)
  | _ => false
  end.

(** *** Strings

    A string is a sequence of code units; the model covers the code units
    below 256. *)

(** [s.split(sep)] for a one-character separator. *)
Fixpoint split (sep : ascii) (s : string) : list string :=
  match s with
  | EmptyString => [EmptyString]
  | String c rest =>
      if Ascii.eqb c sep then EmptyString :: split sep rest
      else match split sep rest with
           | piece :: pieces => String c piece :: pieces
           | [] => [String c EmptyString]
           end
  end.

(** [a.pop()], as an expression: the last element, [undefined] on an empty
    array. *)
Fixpoint pop {A : Type} (a : list A) : option A :=
  match a with
  | [] => None
  | [x] => Some x
  | _ :: rest => pop rest
  end.

(** ToBoolean on [string | undefined]. *)
Definition truthyString (s : option string) : bool :=
  match s with
  | Some (String _ _) => true
  | _ => false
  end.

(** WhiteSpace and LineTerminator code units (below 256): TAB, LF, VT, FF,
    CR, SP, NBSP. *)
Definition isWhiteSpace (c : ascii) : bool :=
  let n := Z.of_N (N_of_ascii c) in
  ((9 <=? n) && (n <=? 13)) || (n =? 32) || (n =? 160).

Definition digitValue (c : ascii) : option Z :=
  let n := Z.of_N (N_of_ascii c) in
  if (48 <=? n) && (n <=? 57) then Some (n - 48) else None.

Fixpoint trimStart (s : string) : string :=
  match s with
  | String c rest => if isWhiteSpace c then trimStart rest else s
  | EmptyString => s
  end.

(** The digit values of the longest prefix of decimal digits. *)
Fixpoint digitsPrefix (s : string) : list Z :=
  match s with
  | String c rest =>
      match digitValue c with
      | Some d => d :: digitsPrefix rest
      | None => []
      end
  | EmptyString => []
  end.

Definition mathInt (ds : list Z) : Z :=
  fold_left (fun acc d => 10 * acc + d) ds 0.

(** [parseInt(s, 10)]: skip leading white space, read an optional sign, then
    the longest run of decimal digits; [NaN] when there is none.  (With
    radix 10 no [0x] prefix is recognised.  The language lets an engine
    replace the digits after the 20th by zeros; the exact value is used
    here.) *)
Definition parseInt (s : string) : number :=
  let t := trimStart s in
  let '(sign, body) :=
    match t with
    | String "-" rest => (-1, rest)
    | String "+" rest => (1, rest)
    | _ => (1, t)
    end in
  match digitsPrefix body with
  | [] => NaN
  | ds => toNumber (sign * mathInt ds)
  end.


(** *** Arrays *)

(** [a.map((x, i) => f(i, x))]. *)
Fixpoint mapi_from {A B : Type} (i : nat) (f : nat -> A -> B) (a : list A) : list B :=
  match a with
  | [] => []
  | x :: rest => f i x :: mapi_from (S i) f rest
  end.

Definition mapi {A B : Type} (f : nat -> A -> B) (a : list A) : list B :=
  mapi_from 0%nat f a.

(** [a.sort(comparefn)].  The language requires the sort to be stable and,
    for a consistent comparator, to leave the array ordered by it; which
    comparisons are made is left to the engine.  Here [x], which precedes the
    elements of [sorted] in the array, is placed behind those that
    [comparefn] puts strictly before it. *)
Fixpoint insert {A : Type} (comparefn : A -> A -> number) (x : A) (sorted : list A) : list A :=
  match sorted with
  | [] => [x]
  | y :: rest =>
      if isPositive (comparefn x y) then y :: insert comparefn x rest
      else x :: sorted
  end.

Fixpoint sort {A : Type} (comparefn : A -> A -> number) (a : list A) : list A :=
  match a with
  | [] => []
  | x :: rest => insert comparefn x (sort comparefn rest)
  end.

(** *** Errors, requests and promises *)

Inductive Error : Type :=
| Err (message : string)   (* [new Error(message)] *)
| TypeError.               (* a property read on [undefined] *)

(** The settled state of a promise. *)
Inductive Settled (A : Type) : Type :=
| Resolved (value : A)
| Rejected (reason : Error).
Arguments Resolved {A} value.
Arguments Rejected {A} reason.

(** An asynchronous computation, run to completion: the requests it has sent,
    in the order they were sent, and how its promise settles. *)
Definition Async (Req A : Type) : Type := (list Req * Settled A)%type.

Definition ret {Req A : Type} (a : A) : Async Req A := ([], Resolved a).

Definition throw {Req A : Type} (e : Error) : Async Req A := ([], Rejected e).

(** [const x = await m; k x]. *)
Definition bind {Req A B : Type} (m : Async Req A) (k : A -> Async Req B) : Async Req B :=
  match m with
  | (sent, Resolved a) => let (sent', r) := k a in ((sent ++ sent')%list, r)
  | (sent, Rejected e) => (sent, Rejected e)
  end.

(** [try { body } catch (error) { handler error }] *)
Definition tryCatch {Req A : Type} (body : Async Req A)
    (handler : Error -> Async Req A) : Async Req A :=
  match body with
  | (sent, Rejected e) => let (sent', r) := handler e in ((sent ++ sent')%list, r)
  | (sent, Resolved a) => (sent, Resolved a)
  end.

(** An HTTP response, with its body already read at the declared type. *)
Record Response (A : Type) : Type := mkResponse {
  ok : bool;
  statusText : string;
  json : A
}.
Arguments mkResponse {A} ok statusText json.
Arguments ok {A} r.
Arguments statusText {A} r.
Arguments json {A} r.

(** [await fetch(...)]: the request is sent once and the network answers
    with a response (a request that gets no response at all is outside the
    model). *)
Definition fetch {Req A : Type} (request : Req) (answer : Response A) : Async Req (Response A) :=
  ([request], Resolved answer).

(** The values of the settled promises, if all are resolved; else the reason
    of the first rejected one. *)
Fixpoint allResolved {A : Type} (ps : list (Settled A)) : Settled (list A) :=
  match ps with
  | [] => Resolved []
  | Resolved a :: rest =>
      match allResolved rest with
      | Resolved values => Resolved (a :: values)
      | Rejected e => Rejected e
      end
  | Rejected e :: _ => Rejected e
  end.

(** The reason of the first promise to be rejected, when the promises settle
    in the order [order] (a list of indices). *)
Fixpoint firstRejected {A : Type} (order : list nat) (ps : list (Settled A)) : option Error :=
  match order with
  | [] => None
  | i :: later =>
      match nth_error ps i with
      | Some (Rejected e) => Some e
      | _ => firstRejected later ps
      end
  end.

(** [await Promise.all(ps)].  Every computation of [ps] has been started, so
    all their requests are sent.  The result is rejected with the reason of
    the promise that is rejected first, and resolved with all the values, in
    the order of [ps], when none is rejected.  [order] is the order in which
    the promises settle, a permutation of their indices; on any other list
    the rejected promises it leaves out are taken in the order of [ps]. *)
Definition promiseAll {Req A : Type} (order : list nat) (ps : list (Async Req A)) : Async Req (list A) :=
  (List.concat (List.map fst ps),
   match firstRejected order (List.map snd ps) with
   | Some e => Rejected e
   | None => allResolved (List.map snd ps)
   end).

End JS.

Declare Scope async_scope.
Delimit Scope async_scope with async.
Notation "x <- m ;; k" := (JS.bind m (fun x => k))
  (at level 61, m at next level, right associativity) : async_scope.

(** ** Types and interfaces *)

Record Coordinates : Type := mkCoordinates {
  latitude : float;
  longitude : float
}.

(** A [Date] built by [new Date(iso)]; only its source string is kept. *)
Inductive Date : Type :=
| NewDate (iso : string).

Record MeetupEvent : Type := mkMeetupEvent {
  name : string;
  description : string;
  datetime : Date;
  maxTickets : option JS.number;
  eventType : string;
  rsvpCount : JS.number;
  eventLink : string;
  location : option Coordinates;
  distance : option float;
  matchScore : option JS.number
}.

(** The feed's payload, [GraphQLResponse]: [edges] lists
    [data.result.edges[i].node]. *)
Module Feed.

Record Venue : Type := mkVenue {
  lat : float;
  lon : float
}.

Record Node : Type := mkNode {
  title : string;
  description : string;
  dateTime : string;
  maxTickets : option JS.number;   (* [number | null] *)
  eventType : string;
  rsvps_totalCount : JS.number;
  eventUrl : string;
  venue : option Venue             (* [{lat, lon} | null] *)
}.

Record GraphQLResponse : Type := mkGraphQLResponse {
  edges : list Node
}.

End Feed.

(** The completion provider's payload, [OpenRouterResponse]: [choices] lists
    [choices[i].message.content]. *)
Record OpenRouterResponse : Type := mkOpenRouterResponse {
  choices : list string
}.

(** The values interpolated into the prompt template of
    [generateMatchRating]; the text around them is fixed. *)
Record Prompt : Type := mkPrompt {
  prompt_interests : string;
  prompt_name : string;
  prompt_description : string;
  prompt_date : Date;
  prompt_distance : option float
}.

(** The requests the client sends: the feed query with its three variable
    fields, and a completion request with its prompt.  What is the same in
    every request of a client (URLs, headers, the API key, the model, the
    persisted query) and the date of the query are left out. *)
Inductive Request : Type :=
| MeetupQuery (first : JS.number) (lat lon : float)
| OpenRouterChat (prompt : Prompt).

(** What the outside world answers during one call of [findNearbyEvents]:
    the feed's response, the completion provider's response to the request
    made for the [i]-th event, and the order in which the scoring promises
    settle. *)
Record Network : Type := mkNetwork {
  meetup : JS.Response Feed.GraphQLResponse;
  openRouter : nat -> JS.Response OpenRouterResponse;
  settleOrder : list nat
}.

Definition Async : Type -> Type := JS.Async Request.

(** ** The client *)

(** The [Math] functions the distance uses, and [**]; the language leaves
    their precision to the engine. *)
Class MathLib : Type := mkMathLib {
  Math_sin : float -> float;
  Math_cos : float -> float;
  Math_atan2 : float -> float -> float;
  Math_sqrt : float -> float;
  Math_pow : float -> float -> float
}.

Definition Math_PI : float := 0x1.921fb54442d18p+1%float.

Section MeetupClient.

Context {math : MathLib}.

Local Open Scope async_scope.

Definition calculateDistance (coord1 coord2 : Coordinates) : float :=
  let R := 6371%float in
  let lat1 := latitude coord1 in
  let lon1 := longitude coord1 in
  let lat2 := latitude coord2 in
  let lon2 := longitude coord2 in
  let rad := fun x => (x * Math_PI / 180)%float in
  let rlat1 := rad lat1 in
  let rlon1 := rad lon1 in
  let rlat2 := rad lat2 in
  let rlon2 := rad lon2 in
  let dlat := (rlat2 - rlat1)%float in
  let dlon := (rlon2 - rlon1)%float in
  let a :=
    (Math_pow (Math_sin (dlat / 2)) 2 +
     Math_cos rlat1 * Math_cos rlat2 * Math_pow (Math_sin (dlon / 2)) 2)%float in
  let c := (2 * Math_atan2 (Math_sqrt a) (Math_sqrt (1 - a)))%float in
  (R * c)%float.

Definition openRouterRequest (answer : JS.Response OpenRouterResponse)
    (prompt : Prompt) : Async string :=
  response <- JS.fetch (OpenRouterChat prompt) answer ;;
  if negb (JS.ok response) then
    JS.throw (JS.Err ("OpenRouter API error: " ++ JS.statusText response))
  else
    let data := JS.json response in
    match choices data with
    | content :: _ => JS.ret content
    | [] => JS.throw JS.TypeError
    end.

(** [response.split("{").pop()?.split("}")[0]] *)
Definition ratingText (response : string) : option string :=
  match JS.pop (JS.split "{" response) with
  | Some last => nth_error (JS.split "}" last) 0
  | None => None
  end.

(** The value returned in the [try] block of [generateMatchRating]:
    [match ? parseInt(match, 10) : 0].  On a string neither [split], [pop]
    nor [parseInt] throws. *)
Definition parseRating (response : string) : JS.number :=
  let match_ := ratingText response in
  if JS.truthyString match_ then
    match match_ with
    | Some text => JS.parseInt text
    | None => JS.Int 0
    end
  else JS.Int 0.

Definition generateMatchRating (answer : JS.Response OpenRouterResponse)
    (event : MeetupEvent) (interests : string) : Async JS.number :=
  let prompt :=
    {| prompt_interests := interests;
       prompt_name := name event;
       prompt_description := description event;
       prompt_date := datetime event;
       prompt_distance := distance event |} in
  response <- openRouterRequest answer prompt ;;
  JS.tryCatch
    (JS.ret (parseRating response))
    (fun error => JS.ret (JS.Int 0)).

(** [event.location = l] *)
Definition setLocation (event : MeetupEvent) (l : Coordinates) : MeetupEvent :=
  {| name := name event;
     description := description event;
     datetime := datetime event;
     maxTickets := maxTickets event;
     eventType := eventType event;
     rsvpCount := rsvpCount event;
     eventLink := eventLink event;
     location := Some l;
     distance := distance event;
     matchScore := matchScore event |}.

(** [event.distance = d] *)
Definition setDistance (event : MeetupEvent) (d : float) : MeetupEvent :=
  {| name := name event;
     description := description event;
     datetime := datetime event;
     maxTickets := maxTickets event;
     eventType := eventType event;
     rsvpCount := rsvpCount event;
     eventLink := eventLink event;
     location := location event;
     distance := Some d;
     matchScore := matchScore event |}.

(** [{ ...event, matchScore: score }] *)
Definition withMatchScore (event : MeetupEvent) (score : JS.number) : MeetupEvent :=
  {| name := name event;
     description := description event;
     datetime := datetime event;
     maxTickets := maxTickets event;
     eventType := eventType event;
     rsvpCount := rsvpCount event;
     eventLink := eventLink event;
     location := location event;
     distance := distance event;
     matchScore := Some score |}.

(** The callback of [edges.map] in [findNearbyEvents], on [edge.node]. *)
Definition toEvent (origin : Coordinates) (node : Feed.Node) : MeetupEvent :=
  let venue := Feed.venue node in
  let event :=
    {| name := Feed.title node;
       description := Feed.description node;
       datetime := NewDate (Feed.dateTime node);
       maxTickets := JS.orUndefined (Feed.maxTickets node);
       eventType := Feed.eventType node;
       rsvpCount := Feed.rsvps_totalCount node;
       eventLink := Feed.eventUrl node;
       location := None;
       distance := None;
       matchScore := None |} in
  match venue with
  | Some v =>
      let l := {| latitude := Feed.lat v; longitude := Feed.lon v |} in
      let event := setLocation event l in
      setDistance event (calculateDistance origin l)
  | None => event
  end.

(** The comparator of the final sort. *)
Definition byMatchScore (a b : MeetupEvent) : JS.number :=
  JS.sub (JS.orNumber (matchScore b) (JS.Int 0)) (JS.orNumber (matchScore a) (JS.Int 0)).

(** The callback of [events.map] in the scoring step, for the event at
    index [i]. *)
Definition scoreEvent (net : Network) (interests : string)
    (i : nat) (event : MeetupEvent) : Async MeetupEvent :=
  score <- generateMatchRating (openRouter net i) event interests ;;
  JS.ret (withMatchScore event score).

(** [findNearbyEvents({ location, numEvents = 10, interests })]; the
    parameter [location] is called [origin] here. *)
Definition findNearbyEvents (net : Network) (origin : Coordinates)
    (numEvents : option JS.number) (interests : option string)
    : Async (list MeetupEvent) :=
  let first := match numEvents with Some n => n | None => JS.Int 10 end in
  response <-
    JS.fetch (MeetupQuery first (latitude origin) (longitude origin)) (meetup net) ;;
  if negb (JS.ok response) then
    JS.throw (JS.Err ("Meetup API error: " ++ JS.statusText response))
  else
    let data := JS.json response in
    let events := List.map (toEvent origin) (Feed.edges data) in
    match interests with
    | Some (String _ _ as interests) =>
        events <-
          JS.promiseAll (settleOrder net)
            (JS.mapi (scoreEvent net interests) events) ;;
        JS.ret (JS.sort byMatchScore events)
    | _ => JS.ret events
    end.

End MeetupClient.

(** ** Vocabulary of the statements *)

(** How the promise of [openRouterRequest] settles on a given response; the
    prompt has no part in it. *)
Definition reply (answer : JS.Response OpenRouterResponse) : JS.Settled string :=
  snd (openRouterRequest answer (mkPrompt "" "" "" (NewDate "") None)).

(** The prompt of the scoring request for [event]. *)
Definition promptFor (interests : string) (event : MeetupEvent) : Prompt :=
  {| prompt_interests := interests;
     prompt_name := name event;
     prompt_description := description event;
     prompt_date := datetime event;
     prompt_distance := distance event |}.

(** A transport failure: the response is not [ok]. *)
Definition transportFailure {A : Type} (answer : JS.Response A) : Prop :=
  JS.ok answer = false.

(** The interests string is supplied: present and not empty. *)
Definition supplied (interests : option string) : Prop :=
  exists c rest, interests = Some (String c rest).

(** A non-empty run of decimal digits, and its value. *)
Definition isDecimal (text : string) : bool :=
  match text with
  | EmptyString => false
  | _ => forallb (fun c => match JS.digitValue c with Some _ => true | None => false end)
           (list_ascii_of_string text)
  end.

Definition decimalValue (text : string) : Z :=
  JS.mathInt (JS.digitsPrefix text).

(** [comparefn] puts [x] strictly after [y]. *)
Definition after {A : Type} (comparefn : A -> A -> JS.number) (x y : A) : bool :=
  JS.isPositive (comparefn x y).

(** The events built from the feed's nodes, in the feed's order. *)
Definition enriched {math : MathLib} (net : Network) (origin : Coordinates)
    : list MeetupEvent :=
  List.map (toEvent origin) (Feed.edges (JS.json (meetup net))).

(** The sort key of the comparator, [matchScore || 0]. *)
Definition key (e : MeetupEvent) : JS.number :=
  JS.orNumber (matchScore e) (JS.Int 0).

Definition eqbNumber (a b : JS.number) : bool :=
  match a, b with
  | JS.NaN, JS.NaN => true
  | JS.Infinity s, JS.Infinity t => Bool.eqb s t
  | JS.Int x, JS.Int y => x =? y
  | _, _ => false
  end.

(** The events whose sort key is [k]. *)
Definition sameKey (k : JS.number) (e : MeetupEvent) : bool :=
  eqbNumber (key e) k.

(** The events whose [matchScore] is [s]. *)
Definition hasScore (s : JS.number) (e : MeetupEvent) : bool :=
  match matchScore e with
  | Some s' => eqbNumber s' s
  | None => false
  end.

(** Two events that differ at most in [matchScore]. *)
Definition sameButMatchScore (a b : MeetupEvent) : Prop :=
  name b = name a /\
  description b = description a /\
  datetime b = datetime a /\
  maxTickets b = maxTickets a /\
  eventType b = eventType a /\
  rsvpCount b = rsvpCount a /\
  eventLink b = eventLink a /\
  location b = location a /\
  distance b = distance a.

(** Every adjacent pair [a], [b] of the sequence has [a.matchScore >=
    b.matchScore]. *)
Fixpoint descending (events : list MeetupEvent) : bool :=
  match events with
  | a :: (b :: _) as rest =>
      match matchScore a, matchScore b with
      | Some x, Some y => JS.ge x y && descending rest
      | _, _ => false
      end
  | _ => true
  end.

(** [scored] is [events] after a scoring step in which every request was
    answered with a reply: same length, and the event at index [i] has
    received the rating parsed from the reply to the [i]-th request. *)
Definition scoredFrom (net : Network) (events scored : list MeetupEvent) : Prop :=
  List.length scored = List.length events /\
  forall i event, nth_error events i = Some event ->
    exists content,
      reply (openRouter net i) = JS.Resolved content /\
      nth_error scored i = Some (withMatchScore event (parseRating content)).

(** *** Sample data *)

#[local] Set Warnings "-inexact-float".

(** A [MathLib] of truncated power series, adequate for the small angles
    of the samples; [**] is exact on the exponents 0, 1 and 2. *)
Definition seriesMath : MathLib :=
  {| Math_sin := fun x =>
       let x2 := (x * x)%float in
       (x * (1 - x2 / 6 * (1 - x2 / 20 * (1 - x2 / 42))))%float;
     Math_cos := fun x =>
       let x2 := (x * x)%float in
       (1 - x2 / 2 * (1 - x2 / 12 * (1 - x2 / 30 * (1 - x2 / 56))))%float;
     Math_atan2 := fun y x =>
       let t := (y / x)%float in
       let t2 := (t * t)%float in
       (t * (1 - t2 * (1 / 3 - t2 * (1 / 5 - t2 / 7))))%float;
     Math_sqrt := PrimFloat.sqrt;
     Math_pow := fun b e =>
       if (e =? 2)%float then (b * b)%float
       else if (e =? 1)%float then b
       else if (e =? 0)%float then 1%float
       else nan |}.

Definition atlanta : Coordinates :=
  {| latitude := 33.75%float; longitude := (-84.39)%float |}.

Definition jazzNight : Feed.Node :=
  {| Feed.title := "Jazz night";
     Feed.description := "Live quartet";
     Feed.dateTime := "2025-01-10T20:00:00-05:00";
     Feed.maxTickets := Some (JS.Int 40);
     Feed.eventType := "PHYSICAL";
     Feed.rsvps_totalCount := JS.Int 12;
     Feed.eventUrl := "https://www.meetup.com/jazz/events/1";
     Feed.venue := Some {| Feed.lat := 33.76%float; Feed.lon := (-84.40)%float |} |}.

Definition bookClub : Feed.Node :=
  {| Feed.title := "Book club";
     Feed.description := "Monthly reading";
     Feed.dateTime := "2025-01-11T18:00:00-05:00";
     Feed.maxTickets := Some (JS.Int 0);
     Feed.eventType := "PHYSICAL";
     Feed.rsvps_totalCount := JS.Int 3;
     Feed.eventUrl := "https://www.meetup.com/books/events/2";
     Feed.venue := None |}.

Definition feedOf (nodes : list Feed.Node) : JS.Response Feed.GraphQLResponse :=
  JS.mkResponse true "OK" {| Feed.edges := nodes |}.

Definition completion (content : string) : JS.Response OpenRouterResponse :=
  JS.mkResponse true "OK" {| choices := [content] |}.

Definition serverError {A : Type} (body : A) : JS.Response A :=
  JS.mkResponse false "Internal Server Error" body.

(** A network answering the [i]-th scoring request with the [i]-th element
    of [answers] (and with a server error past the end), the promises
    settling in the order of the requests. *)
Definition networkOf (nodes : list Feed.Node)
    (answers : list (JS.Response OpenRouterResponse)) : Network :=
  {| meetup := feedOf nodes;
     openRouter := fun i => nth i answers (serverError {| choices := [] |});
     settleOrder := seq 0 (List.length answers) |}.

Definition jazzEvent : MeetupEvent := toEvent (math := seriesMath) atlanta jazzNight.

Definition bookEvent : MeetupEvent := toEvent (math := seriesMath) atlanta bookClub.

Definition jazzConcerts : option string := Some "jazz concerts".

Definition rankedNet : Network :=
  networkOf [bookClub; jazzNight]
    [completion "Reading is not music. {40}";
     completion "A live quartet fits well. {85}"].

Definition overratedNet : Network :=
  networkOf [jazzNight] [completion "Off the scale! {150}"].

Definition proseNet : Network :=
  networkOf [jazzNight; bookClub]
    [completion "An excellent match."; completion "Some overlap. {5}"].


Definition unscoredNet : Network :=
  networkOf [jazzNight; bookClub] [].

Definition halfScoredNet : Network :=
  networkOf [jazzNight; bookClub]
    [completion "A live quartet fits well. {85}";
     serverError {| choices := [] |}].

Definition downFeedNet : Network :=
  {| meetup := serverError {| Feed.edges := [] |};
     openRouter := fun _ => completion "{50}";
     settleOrder := [] |}.


(** ** The client's configuration *)

Record MeetupClientConfig : Type := mkMeetupClientConfig {
  openRouterApiKey : string;
  config_model : option string          (* [model?: string] *)
}.

(** The private fields of a [MeetupClient]. *)
Record MeetupClient : Type := mkMeetupClient {
  apiKey : string;
  model : string;
  baseUrl : string;
  openRouterUrl : string
}.

(** [new MeetupClient(config)] *)
Definition constructor (config : MeetupClientConfig) : MeetupClient :=
  {| apiKey := openRouterApiKey config;
     model :=
       match config_model config with
       | Some (String _ _ as m) => m
       | _ => "meta-llama/llama-3.1-70b-instruct:free"
       end;
     baseUrl := "https://www.meetup.com/gql2";
     openRouterUrl := "https://openrouter.ai/api/v1/chat/completions" |}.

(** ** The presentation layer *)

Module Frontend.

(** The [Event] of the event list. *)
Record Event : Type := mkEvent {
  id : string;
  name : string;
  description : string;
  datetime : string;
  eventLink : string;
  distance : option float;
  matchScore : option JS.number
}.

(** [getMatchScoreColor] of [EventList]. *)
Definition getMatchScoreColor (score : JS.number) : string :=
  if JS.ge score (JS.Int 90) then "bg-green-100"
  else if JS.ge score (JS.Int 80) then "bg-emerald-100"
  else if JS.ge score (JS.Int 70) then "bg-orange-100"
  else if JS.ge score (JS.Int 60) then "bg-orange-100"
  else "bg-red-100 text-red-800".

(** [toggleExpand] of [EventList], as a step on the state
    [expandedEventId]: the value it passes to [setExpandedEventId]. *)
Definition toggleExpand (expandedEventId : option string) (eventId : string)
    : option string :=
  let same :=
    match expandedEventId with
    | Some current => String.eqb current eventId
    | None => false
    end in
  if same then None else Some eventId.

(** The state of [EventFinder]. *)
Record SelectedSources : Type := mkSelectedSources {
  eventbrite : bool;
  meetup : bool;
  facebook : bool;
  ticketmaster : bool;
  stubhub : bool;
  local : bool
}.

Record State : Type := mkState {
  zipCode : string;
  interests : string;
  events : list Event;
  loading : bool;
  error : option string;
  selectedSources : SelectedSources
}.

(** The body of the request to the recommendations service. *)
Record Recommendations : Type := mkRecommendations {
  latitude : float;
  longitude : float;
  request_interests : string;
  num_events : JS.number;
  verbose : bool
}.

(** The payload of the service's response, read where [handleSubmit] reads
    it: [detail] of an error payload (a string when present), [events] of a
    success payload. *)
Record Payload : Type := mkPayload {
  detail : option string;
  payload_events : list Event
}.

Definition setEvents (value : list Event) (s : State) : State :=
  {| zipCode := zipCode s; interests := interests s; events := value;
     loading := loading s; error := error s;
     selectedSources := selectedSources s |}.

Definition setLoading (value : bool) (s : State) : State :=
  {| zipCode := zipCode s; interests := interests s; events := events s;
     loading := value; error := error s;
     selectedSources := selectedSources s |}.

Definition setError (value : option string) (s : State) : State :=
  {| zipCode := zipCode s; interests := interests s; events := events s;
     loading := loading s; error := value;
     selectedSources := selectedSources s |}.

(** [a || b] on strings ([undefined] and the empty string are falsy). *)
Definition orString (a : option string) (b : string) : string :=
  match a with
  | Some (String _ _ as s) => s
  | _ => b
  end.

(** [err instanceof Error ? err.message : 'An error occurred']; every
    reason of the model is an [Error], and [engineMessage] is the message an
    engine gives a [TypeError]. *)
Definition messageOf (engineMessage : string) (err : JS.Error) : string :=
  match err with
  | JS.Err message => message
  | JS.TypeError => engineMessage
  end.

Local Open Scope async_scope.

(** [handleSubmit] of [EventFinder], run to completion on the state [s] of
    the render it belongs to: the requests sent and the state its updates
    leave.  [answer] is the service's response. *)
Definition handleSubmit (engineMessage : string) (answer : JS.Response Payload)
    (s : State) : list Recommendations * State :=
  let s := setEvents [] s in
  let s := setLoading true s in
  let s := setError None s in
  let attempt : JS.Async Recommendations State :=
    JS.tryCatch
      (response <-
         JS.fetch
           {| latitude := 33.75%float;
              longitude := (-84.39)%float;
              request_interests := orString (Some (interests s)) "";
              num_events := JS.Int 10;
              verbose := false |}
           answer ;;
       if negb (JS.ok response) then
         let errorData := JS.json response in
         JS.throw (JS.Err (orString (detail errorData) "Failed to fetch events"))
       else
         let data := JS.json response in
         JS.ret (setEvents (payload_events data) s))
      (fun err => JS.ret (setError (Some (messageOf engineMessage err)) s)) in
  match attempt with
  | (sent, JS.Resolved s) => (sent, setLoading false s)
  | (sent, JS.Rejected _) => (sent, setLoading false s)
  end.

(** The state after a sequence of clicks on events of the list, each
    handled in the render that follows the previous one. *)
Definition clicks (eventIds : list string) (expandedEventId : option string)
    : option string :=
  fold_left toggleExpand eventIds expandedEventId.

End Frontend.

(** ** More vocabulary *)

(** [s] holds no code unit [c]. *)
Fixpoint noChar (c : ascii) (s : string) : bool :=
  match s with
  | EmptyString => true
  | String c' rest => negb (Ascii.eqb c' c) && noChar c rest
  end.

(** What may follow the text of the last bracket: nothing, or a closing
    bracket and a text without opening bracket. *)
Definition closesBracket (tail : string) : bool :=
  match tail with
  | EmptyString => true
  | String c suffix => Ascii.eqb c "}" && noChar "{" suffix
  end.

Definition allWhiteSpace (s : string) : bool :=
  forallb JS.isWhiteSpace (list_ascii_of_string s).

Definition noLeadingDigit (s : string) : bool :=
  match s with
  | EmptyString => true
  | String c _ => match JS.digitValue c with Some _ => false | None => true end
  end.

(** [{ ...event, matchScore: undefined }], the event before it was scored. *)
Definition withoutMatchScore (event : MeetupEvent) : MeetupEvent :=
  {| name := name event;
     description := description event;
     datetime := datetime event;
     maxTickets := maxTickets event;
     eventType := eventType event;
     rsvpCount := rsvpCount event;
     eventLink := eventLink event;
     location := location event;
     distance := distance event;
     matchScore := None |}.

(** *** More samples *)

Definition tiedNet : Network :=
  networkOf [jazzNight; bookClub]
    [completion "Hard to say."; completion "No rating {}"].


Definition idleState : Frontend.State :=
  {| Frontend.zipCode := "30303";
     Frontend.interests := "jazz concerts";
     Frontend.events := [];
     Frontend.loading := false;
     Frontend.error := None;
     Frontend.selectedSources :=
       {| Frontend.eventbrite := true; Frontend.meetup := true;
          Frontend.facebook := false; Frontend.ticketmaster := true;
          Frontend.stubhub := false; Frontend.local := true |} |}.

Definition otherZipState : Frontend.State :=
  {| Frontend.zipCode := "94110";
     Frontend.interests := "jazz concerts";
     Frontend.events := [];
     Frontend.loading := false;
     Frontend.error := Some "stale";
     Frontend.selectedSources :=
       {| Frontend.eventbrite := false; Frontend.meetup := false;
          Frontend.facebook := false; Frontend.ticketmaster := false;
          Frontend.stubhub := false; Frontend.local := false |} |}.

(** * Properties *)

(** ** Numbers *)

Lemma toNumber_exact (z : Z) :
  Z.abs z < 2 ^ 53 -> JS.toNumber z = JS.Int z.
Proof.
  intros Hz. unfold JS.toNumber.
  destruct (Z.ltb_spec (Z.abs z) (2 ^ 53)) as [_ | Hge]; [reflexivity | lia].
Qed.

(** Rounding keeps the sign, and a magnitude of at least [2 ^ 53] stays at
    least that large. *)
Lemma toNumber_large (z : Z) :
  2 ^ 53 <= Z.abs z ->
  JS.toNumber z = JS.Infinity (z <? 0) \/
  exists v, 2 ^ 53 <= v /\ JS.toNumber z = JS.Int (Z.sgn z * v).
Proof.
  intros Hz. unfold JS.toNumber.
  destruct (Z.ltb_spec (Z.abs z) (2 ^ 53)) as [Hlt | _]; [lia |].
  set (a := Z.abs z) in *.
  set (e := Z.log2 a - 52).
  assert (Ha : 0 < a) by (assert (0 < 2 ^ 53) by (apply Z.pow_pos_nonneg; lia); lia).
  assert (Hlog : 53 <= Z.log2 a).
  { apply Z.log2_le_pow2; [exact Ha | exact Hz]. }
  assert (He : 1 <= e) by (unfold e; lia).
  assert (Hpe : 2 <= 2 ^ e).
  { change 2 with (2 ^ 1) at 1. apply Z.pow_le_mono_r; lia. }
  assert (Hq : 2 ^ 52 <= a / 2 ^ e).
  { apply Z.div_le_lower_bound; [lia |].
    rewrite <- Z.pow_add_r by lia.
    replace (e + 52) with (Z.log2 a) by (unfold e; lia).
    apply Z.log2_spec; exact Ha. }
  set (q := a / 2 ^ e) in *.
  match goal with
  | |- context [if ?c then q + 1 else q] => set (q' := if c then q + 1 else q)
  end.
  assert (Hq' : q <= q') by (unfold q'; destruct (_ || _)%bool; lia).
  destruct (Z.leb_spec (2 ^ 1024) (q' * 2 ^ e)) as [_ | _]; [left; reflexivity |].
  right. exists (q' * 2 ^ e). split; [| reflexivity].
  assert (0 < 2 ^ 52) by (apply Z.pow_pos_nonneg; lia).
  replace (2 ^ 53) with (2 ^ 52 * 2) by reflexivity.
  apply Z.mul_le_mono_nonneg; lia.
Qed.

Lemma isPositive_toNumber (z : Z) :
  JS.isPositive (JS.toNumber z) = (0 <? z).
Proof.
  destruct (Z.lt_ge_cases (Z.abs z) (2 ^ 53)) as [Hs | Hl].
  - rewrite toNumber_exact by exact Hs. reflexivity.
  - assert (H53 : 0 < 2 ^ 53) by (apply Z.pow_pos_nonneg; lia).
    destruct (toNumber_large z Hl) as [-> | (v & Hv & ->)]; simpl.
    + destruct (Z.ltb_spec z 0), (Z.ltb_spec 0 z); simpl; try reflexivity; lia.
    + destruct (Z.ltb_spec 0 z), (Z.ltb_spec 0 (Z.sgn z * v)); try reflexivity; nia.
Qed.

Lemma ge_total (a b : JS.number) :
  a <> JS.NaN -> b <> JS.NaN -> JS.ge a b = false -> JS.ge b a = true.
Proof.
  destruct a as [| [] | x], b as [| [] | y]; simpl; try congruence.
  intros _ _ H. apply Z.leb_gt in H. apply Z.leb_le. lia.
Qed.

Lemma ge_trans (a b c : JS.number) :
  JS.ge a b = true -> JS.ge b c = true -> JS.ge a c = true.
Proof.
  destruct a as [| [] | x], b as [| [] | y], c as [| [] | z]; simpl;
    try congruence.
  rewrite !Z.leb_le. lia.
Qed.

Lemma orNumber_not_NaN (x : option JS.number) :
  JS.orNumber x (JS.Int 0) <> JS.NaN.
Proof.
  destruct x as [[| s | z] |]; simpl; try discriminate.
  destruct (negb (z =? 0)); discriminate.
Qed.

(** The comparator puts [a] strictly after [b] exactly when the key of [a]
    is not at least the key of [b]. *)
Lemma isPositive_sub (ka kb : JS.number) :
  ka <> JS.NaN -> kb <> JS.NaN ->
  JS.isPositive (JS.sub kb ka) = negb (JS.ge ka kb).
Proof.
  destruct ka as [| s | x], kb as [| t | y]; try congruence; intros _ _; simpl.
  - destruct s, t; reflexivity.
  - rewrite Bool.negb_involutive. reflexivity.
  - reflexivity.
  - rewrite isPositive_toNumber.
    destruct (Z.ltb_spec 0 (y - x)), (Z.leb_spec y x); simpl; try reflexivity; lia.
Qed.

(** ** Arrays: the sort *)

Section Sort.

Context {A : Type} (comparefn : A -> A -> JS.number).

Lemma insert_permutation (x : A) (l : list A) :
  Permutation (JS.insert comparefn x l) (x :: l).
Proof.
  induction l as [| y l IH]; simpl.
  - apply Permutation_refl.
  - destruct (JS.isPositive (comparefn x y)).
    + eapply perm_trans; [apply perm_skip, IH | apply perm_swap].
    + apply Permutation_refl.
Qed.

Lemma sort_permutation (l : list A) :
  Permutation (JS.sort comparefn l) l.
Proof.
  induction l as [| x l IH]; simpl.
  - apply perm_nil.
  - eapply perm_trans; [apply insert_permutation | apply perm_skip, IH].
Qed.

(** Stability: a class of elements none of which the comparator puts
    strictly after another one keeps its order. *)
Lemma filter_insert (P : A -> bool) (x : A) (l : list A) :
  (forall y, P x = true -> P y = true -> after comparefn x y = false) ->
  filter P (JS.insert comparefn x l) = filter P (x :: l).
Proof.
  intros Hclass. induction l as [| y l IH]; [reflexivity |].
  simpl. destruct (JS.isPositive (comparefn x y)) eqn:Hxy; [| reflexivity].
  simpl. rewrite IH. simpl.
  destruct (P x) eqn:Hx, (P y) eqn:Hy; try reflexivity.
  specialize (Hclass y eq_refl Hy). unfold after in Hclass. congruence.
Qed.

Lemma filter_sort (P : A -> bool) (l : list A) :
  (forall x y, P x = true -> P y = true -> after comparefn x y = false) ->
  filter P (JS.sort comparefn l) = filter P l.
Proof.
  intros Hclass. induction l as [| x l IH]; [reflexivity |].
  simpl JS.sort. rewrite filter_insert by (intro y; apply Hclass).
  simpl. rewrite IH. reflexivity.
Qed.

(** Order: for a comparator that is asymmetric and negatively transitive,
    no element of the result is put strictly after a later one. *)
Hypothesis comparefn_asym : forall x y, after comparefn x y = true -> after comparefn y x = false.
Hypothesis comparefn_trans :
  forall x y z, after comparefn x y = false -> after comparefn y z = false -> after comparefn x z = false.

Lemma insert_sorted (x : A) (l : list A) :
  StronglySorted (fun a b => after comparefn a b = false) l ->
  StronglySorted (fun a b => after comparefn a b = false) (JS.insert comparefn x l).
Proof.
  induction 1 as [| y l Hl IH Hy]; simpl.
  - constructor; constructor.
  - destruct (JS.isPositive (comparefn x y)) eqn:Hxy.
    + constructor; [exact IH |].
      apply (Permutation_Forall (Permutation_sym (insert_permutation x l))).
      constructor; [apply comparefn_asym; exact Hxy | exact Hy].
    + constructor; [constructor; assumption |].
      constructor; [exact Hxy |].
      eapply Forall_impl; [| exact Hy].
      intros z Hyz. eapply comparefn_trans; [exact Hxy | exact Hyz].
Qed.

Lemma sort_sorted (l : list A) :
  StronglySorted (fun a b => after comparefn a b = false) (JS.sort comparefn l).
Proof.
  induction l as [| x l IH]; simpl.
  - constructor.
  - apply insert_sorted, IH.
Qed.

End Sort.

Lemma StronglySorted_weaken {A : Type} (R S : A -> A -> Prop) (l : list A) :
  (forall a b, R a b -> S a b) -> StronglySorted R l -> StronglySorted S l.
Proof.
  intros HRS. induction 1 as [| x l Hl IH Hx]; constructor.
  - exact IH.
  - eapply Forall_impl; [| exact Hx]. intros b; apply HRS.
Qed.

(** ** The ranking *)

Lemma key_not_NaN (e : MeetupEvent) : key e <> JS.NaN.
Proof. apply orNumber_not_NaN. Qed.

Lemma after_byMatchScore (a b : MeetupEvent) :
  after byMatchScore a b = negb (JS.ge (key a) (key b)).
Proof. apply isPositive_sub; apply key_not_NaN. Qed.

(** The final sort orders the events by decreasing key. *)
Lemma sort_byMatchScore_sorted (events : list MeetupEvent) :
  StronglySorted (fun a b => JS.ge (key a) (key b) = true)
    (JS.sort byMatchScore events).
Proof.
  apply (StronglySorted_weaken (fun a b => after byMatchScore a b = false));
    [| apply sort_sorted].
  - intros a b. rewrite after_byMatchScore.
    destruct (JS.ge (key a) (key b)); [reflexivity | discriminate].
  - intros x y. rewrite !after_byMatchScore. intros H.
    apply Bool.negb_true_iff in H.
    rewrite (ge_total _ _ (key_not_NaN x) (key_not_NaN y) H). reflexivity.
  - intros x y z. rewrite !after_byMatchScore, !Bool.negb_false_iff.
    apply ge_trans.
Qed.

(** ** Promises *)

Lemma snd_bind {Req A B : Type} (m : JS.Async Req A) (k : A -> JS.Async Req B) :
  snd (JS.bind m k) =
  match snd m with
  | JS.Resolved a => snd (k a)
  | JS.Rejected e => JS.Rejected e
  end.
Proof.
  destruct m as [sent [a | e]]; simpl; [| reflexivity].
  destruct (k a); reflexivity.
Qed.

(** A [try] block that only returns never enters its [catch] branch. *)
Lemma tryCatch_ret {Req A : Type} (a : A) (handler : JS.Error -> JS.Async Req A) :
  JS.tryCatch (JS.ret a) handler = JS.ret a.
Proof. reflexivity. Qed.

Lemma allResolved_values {A : Type} (ps : list (JS.Settled A)) (vs : list A) :
  JS.allResolved ps = JS.Resolved vs -> ps = List.map JS.Resolved vs.
Proof.
  revert vs. induction ps as [| [a | e] ps IH]; simpl; intros vs H.
  - injection H as <-. reflexivity.
  - destruct (JS.allResolved ps) as [ws | e]; [| discriminate].
    injection H as <-. simpl. rewrite (IH ws eq_refl). reflexivity.
  - discriminate.
Qed.



Lemma promiseAll_resolved {Req A : Type} (order : list nat)
    (ps : list (JS.Async Req A)) (vs : list A) :
  snd (JS.promiseAll order ps) = JS.Resolved vs ->
  List.map snd ps = List.map JS.Resolved vs.
Proof.
  unfold JS.promiseAll. simpl.
  destruct (JS.firstRejected order (List.map snd ps)); [discriminate |].
  apply allResolved_values.
Qed.



Lemma nth_error_mapi_from {A B : Type} (f : nat -> A -> B) (l : list A) (k j : nat) :
  nth_error (JS.mapi_from k f l) j = option_map (f (k + j)%nat) (nth_error l j).
Proof.
  revert k j. induction l as [| x l IH]; intros k [| j]; simpl; try reflexivity.
  - rewrite Nat.add_0_r. reflexivity.
  - rewrite IH. rewrite Nat.add_succ_r. reflexivity.
Qed.

Lemma nth_error_mapi {A B : Type} (f : nat -> A -> B) (l : list A) (j : nat) :
  nth_error (JS.mapi f l) j = option_map (f j) (nth_error l j).
Proof. apply nth_error_mapi_from. Qed.

Lemma length_mapi {A B : Type} (f : nat -> A -> B) (l : list A) :
  List.length (JS.mapi f l) = List.length l.
Proof.
  unfold JS.mapi. generalize 0%nat.
  induction l as [| x l IH]; intros k; simpl; [reflexivity |].
  rewrite IH. reflexivity.
Qed.

(** ** The scorer *)

Lemma reply_cases (answer : JS.Response OpenRouterResponse) :
  reply answer =
  if JS.ok answer then
    match choices (JS.json answer) with
    | content :: _ => JS.Resolved content
    | [] => JS.Rejected JS.TypeError
    end
  else JS.Rejected (JS.Err ("OpenRouter API error: " ++ JS.statusText answer)).
Proof.
  unfold reply, openRouterRequest. rewrite snd_bind. simpl.
  destruct (JS.ok answer); simpl; [| reflexivity].
  destruct (choices (JS.json answer)); reflexivity.
Qed.

Lemma snd_openRouterRequest (answer : JS.Response OpenRouterResponse) (prompt : Prompt) :
  snd (openRouterRequest answer prompt) = reply answer.
Proof.
  rewrite reply_cases. unfold openRouterRequest. rewrite snd_bind. simpl.
  destruct (JS.ok answer); simpl; [| reflexivity].
  destruct (choices (JS.json answer)); reflexivity.
Qed.

Lemma snd_generateMatchRating (answer : JS.Response OpenRouterResponse)
    (event : MeetupEvent) (interests : string) :
  snd (generateMatchRating answer event interests) =
  match reply answer with
  | JS.Resolved content => JS.Resolved (parseRating content)
  | JS.Rejected e => JS.Rejected e
  end.
Proof.
  unfold generateMatchRating. rewrite snd_bind, snd_openRouterRequest.
  destruct (reply answer); reflexivity.
Qed.

Lemma snd_scoreEvent (net : Network) (interests : string) (i : nat) (event : MeetupEvent) :
  snd (scoreEvent net interests i event) =
  match reply (openRouter net i) with
  | JS.Resolved content => JS.Resolved (withMatchScore event (parseRating content))
  | JS.Rejected e => JS.Rejected e
  end.
Proof.
  unfold scoreEvent. rewrite snd_bind, snd_generateMatchRating.
  destruct (reply (openRouter net i)); reflexivity.
Qed.

Lemma scoring_resolved (net : Network) (interests : string)
    (events scored : list MeetupEvent) :
  snd (JS.promiseAll (settleOrder net) (JS.mapi (scoreEvent net interests) events))
    = JS.Resolved scored ->
  scoredFrom net events scored.
Proof.
  intros Hall. apply promiseAll_resolved in Hall. split.
  - apply (f_equal (@List.length _)) in Hall.
    rewrite !length_map, length_mapi in Hall. symmetry. exact Hall.
  - intros i event Hi.
    apply (f_equal (fun l => nth_error l i)) in Hall.
    rewrite !nth_error_map, nth_error_mapi, Hi in Hall. simpl in Hall.
    rewrite snd_scoreEvent in Hall.
    destruct (reply (openRouter net i)) as [content | e];
      destruct (nth_error scored i) as [v |]; simpl in Hall; try discriminate.
    exists content. split; [reflexivity |]. congruence.
Qed.

(** ** The orchestrator *)

Section Orchestrator.

Context {math : MathLib}.

Variables (net : Network) (origin : Coordinates) (numEvents : option JS.number).


Lemma findNearbyEvents_feed_failure (interests : option string) :
  JS.ok (meetup net) = false ->
  snd (findNearbyEvents net origin numEvents interests) =
  JS.Rejected (JS.Err ("Meetup API error: " ++ JS.statusText (meetup net))).
Proof.
  intros Hok. unfold findNearbyEvents. rewrite snd_bind. simpl.
  rewrite Hok. reflexivity.
Qed.

Lemma findNearbyEvents_unranked (interests : option string) :
  JS.ok (meetup net) = true ->
  ~ supplied interests ->
  snd (findNearbyEvents net origin numEvents interests) = JS.Resolved (enriched net origin).
Proof.
  intros Hok Hnone. unfold findNearbyEvents. rewrite snd_bind. simpl.
  rewrite Hok. simpl.
  destruct interests as [[| c rest] |]; try reflexivity.
  exfalso. apply Hnone. exists c, rest. reflexivity.
Qed.

Lemma findNearbyEvents_ranked (c : ascii) (rest : string) :
  JS.ok (meetup net) = true ->
  snd (findNearbyEvents net origin numEvents (Some (String c rest))) =
  match snd (JS.promiseAll (settleOrder net)
               (JS.mapi (scoreEvent net (String c rest)) (enriched net origin))) with
  | JS.Resolved scored => JS.Resolved (JS.sort byMatchScore scored)
  | JS.Rejected e => JS.Rejected e
  end.
Proof.
  intros Hok. unfold findNearbyEvents. rewrite snd_bind. simpl fst. simpl snd.
  cbv iota. rewrite Hok. simpl negb. cbv iota. unfold enriched.
  match goal with
  | |- snd (match ?m with JS.Resolved _ => _ | JS.Rejected _ => _ end) = _ =>
      destruct m; reflexivity
  end.
Qed.

(** What a fulfilled call has done: the feed answered with success, and
    the result is either the enriched events as they are, or the scored
    events sorted. *)
Lemma findNearbyEvents_resolved (interests : option string) (events : list MeetupEvent) :
  snd (findNearbyEvents net origin numEvents interests) = JS.Resolved events ->
  JS.ok (meetup net) = true /\
  ((~ supplied interests /\ events = enriched net origin) \/
   (supplied interests /\
    exists scored, scoredFrom net (enriched net origin) scored /\
                   events = JS.sort byMatchScore scored)).
Proof.
  intros Hres.
  destruct (JS.ok (meetup net)) eqn:Hok.
  2:{ rewrite findNearbyEvents_feed_failure in Hres by exact Hok. discriminate. }
  split; [reflexivity |].
  destruct interests as [[| c rest] |].
  - left. assert (Hn : ~ supplied (Some "")) by (intros (c & r & H); discriminate).
    split; [exact Hn |].
    rewrite findNearbyEvents_unranked in Hres by assumption. congruence.
  - right. split; [exists c, rest; reflexivity |].
    rewrite findNearbyEvents_ranked in Hres by exact Hok.
    destruct (snd (JS.promiseAll _ _)) as [scored | e] eqn:Hall; [| discriminate].
    exists scored. split; [| congruence].
    eapply scoring_resolved. exact Hall.
  - left. assert (Hn : ~ supplied None) by (intros (c & r & H); discriminate).
    split; [exact Hn |].
    rewrite findNearbyEvents_unranked in Hres by assumption. congruence.
Qed.

End Orchestrator.

(** ** Reading the rating *)

Lemma digitValue_range (c : ascii) (d : Z) :
  JS.digitValue c = Some d -> 0 <= d <= 9.
Proof.
  unfold JS.digitValue.
  destruct (Z.leb_spec 48 (Z.of_N (N_of_ascii c))),
           (Z.leb_spec (Z.of_N (N_of_ascii c)) 57); simpl; try discriminate.
  intros Hd. injection Hd as <-. lia.
Qed.

Lemma mathInt_nonneg (s : string) : 0 <= JS.mathInt (JS.digitsPrefix s).
Proof.
  unfold JS.mathInt.
  assert (Hgen : forall acc, 0 <= acc ->
            0 <= fold_left (fun acc d => 10 * acc + d) (JS.digitsPrefix s) acc);
    [| apply Hgen; lia].
  induction s as [| c s IH]; intros acc Hacc; cbn [JS.digitsPrefix fold_left];
    [exact Hacc |].
  destruct (JS.digitValue c) as [d |] eqn:Hd; cbn [fold_left]; [| exact Hacc].
  apply IH. apply digitValue_range in Hd. lia.
Qed.

(** On a string that starts with a digit [parseInt] skips nothing and reads
    no sign. *)
Lemma parseInt_digit_first (c : ascii) (rest : string) (d : Z) :
  JS.digitValue c = Some d ->
  JS.parseInt (String c rest) =
  JS.toNumber (JS.mathInt (JS.digitsPrefix (String c rest))).
Proof.
  intros Hd.
  destruct c as [[] [] [] [] [] [] [] []]; cbv in Hd; try discriminate Hd;
    unfold JS.parseInt; cbn -[JS.toNumber Z.mul JS.mathInt];
    rewrite Z.mul_1_l; reflexivity.
Qed.

Lemma parseInt_decimal (text : string) :
  isDecimal text = true ->
  JS.parseInt text = JS.toNumber (decimalValue text).
Proof.
  destruct text as [| c rest]; simpl; [discriminate |].
  destruct (JS.digitValue c) as [d |] eqn:Hd; [| discriminate].
  intros _. eapply parseInt_digit_first. exact Hd.
Qed.

(** A reply whose last bracket holds a decimal numeral is rated with the
    Number value of that numeral. *)
Lemma parseRating_decimal (content text : string) :
  ratingText content = Some text ->
  isDecimal text = true ->
  parseRating content = JS.toNumber (decimalValue text).
Proof.
  intros Htext Hdec. unfold parseRating. rewrite Htext.
  destruct text as [| c rest]; [discriminate |].
  simpl JS.truthyString. cbv iota. apply parseInt_decimal. exact Hdec.
Qed.

Lemma parseRating_percentage (content text : string) :
  ratingText content = Some text ->
  isDecimal text = true ->
  decimalValue text <= 100 ->
  parseRating content = JS.Int (decimalValue text) /\
  0 <= decimalValue text <= 100.
Proof.
  intros Htext Hdec Hle.
  pose proof (mathInt_nonneg text) as Hge. fold (decimalValue text) in Hge.
  rewrite (parseRating_decimal _ _ Htext Hdec).
  split; [| lia].
  apply toNumber_exact.
  assert (100 < 2 ^ 53) by reflexivity. lia.
Qed.

(** ** Scored events *)

Lemma scoredFrom_In (net : Network) (events scored : list MeetupEvent) (e : MeetupEvent) :
  scoredFrom net events scored ->
  In e scored ->
  exists i event content,
    nth_error events i = Some event /\
    reply (openRouter net i) = JS.Resolved content /\
    e = withMatchScore event (parseRating content).
Proof.
  intros [Hlen Hat] Hin.
  apply In_nth_error in Hin. destruct Hin as [i Hi].
  assert (Hlt : (i < List.length events)%nat).
  { rewrite <- Hlen. apply nth_error_Some. congruence. }
  destruct (nth_error events i) as [event |] eqn:Hev.
  2:{ apply nth_error_None in Hev. lia. }
  destruct (Hat i event Hev) as (content & Hreply & Hsc).
  exists i, event, content. repeat split; try assumption. congruence.
Qed.

Lemma In_sort_byMatchScore (scored : list MeetupEvent) (e : MeetupEvent) :
  In e (JS.sort byMatchScore scored) <-> In e scored.
Proof.
  split; apply Permutation_in;
    [| apply Permutation_sym]; apply sort_permutation.
Qed.

Lemma toEvent_matchScore {math : MathLib} (origin : Coordinates) (node : Feed.Node) :
  matchScore (toEvent origin node) = None.
Proof. unfold toEvent. destruct (Feed.venue node); reflexivity. Qed.

Lemma toEvent_maxTickets {math : MathLib} (origin : Coordinates) (node : Feed.Node) :
  maxTickets (toEvent origin node) = JS.orUndefined (Feed.maxTickets node).
Proof. unfold toEvent. destruct (Feed.venue node); reflexivity. Qed.


Lemma key_of_score (e : MeetupEvent) (s : JS.number) :
  matchScore e = Some s -> s <> JS.NaN -> key e = s.
Proof.
  unfold key. intros -> Hs. destruct s as [| neg | z]; simpl; try congruence.
  destruct (Z.eqb_spec z 0) as [-> |]; reflexivity.
Qed.

Lemma eqbNumber_eq (a b : JS.number) : eqbNumber a b = true -> a = b.
Proof.
  destruct a as [| s | x], b as [| t | y]; simpl; try discriminate.
  - reflexivity.
  - intros H. apply Bool.eqb_prop in H. congruence.
  - intros H. apply Z.eqb_eq in H. congruence.
Qed.

Lemma ge_refl (a : JS.number) : a <> JS.NaN -> JS.ge a a = true.
Proof.
  destruct a as [| [] | x]; simpl; try congruence; try reflexivity.
  intros _. apply Z.leb_refl.
Qed.

Lemma eqbNumber_refl (a : JS.number) : eqbNumber a a = true.
Proof.
  destruct a as [| s | x]; simpl;
    [reflexivity | apply Bool.eqb_reflx | apply Z.eqb_refl].
Qed.

Lemma ge_antisym (a b : JS.number) :
  JS.ge a b = true -> JS.ge b a = true -> a = b.
Proof.
  destruct a as [| [] | x], b as [| [] | y]; simpl; try congruence.
  rewrite !Z.leb_le. intros. f_equal. lia.
Qed.

(** Events with one and the same key are never reordered. *)
Lemma sort_byMatchScore_keeps_key_class (k : JS.number) (events : list MeetupEvent) :
  filter (sameKey k) (JS.sort byMatchScore events) = filter (sameKey k) events.
Proof.
  apply filter_sort. intros x y Hx Hy. rewrite after_byMatchScore.
  apply eqbNumber_eq in Hx, Hy.
  replace (key y) with (key x) by congruence.
  rewrite ge_refl by apply key_not_NaN. reflexivity.
Qed.

(** Events with one and the same score are never reordered. *)
Lemma sort_byMatchScore_stable (s : JS.number) (events : list MeetupEvent) :
  filter (hasScore s) (JS.sort byMatchScore events) = filter (hasScore s) events.
Proof.
  apply filter_sort. intros x y Hx Hy. rewrite after_byMatchScore.
  assert (Hk : key x = key y).
  { unfold hasScore in Hx, Hy. unfold key.
    destruct (matchScore x) as [sx |]; [| discriminate].
    destruct (matchScore y) as [sy |]; [| discriminate].
    apply eqbNumber_eq in Hx, Hy. congruence. }
  rewrite Hk, ge_refl by apply key_not_NaN. reflexivity.
Qed.

(** The order of the result does not depend on how the engine sorts: two
    sequences that are ordered by decreasing key and hold every key class
    in the same order are equal. *)
Lemma sorted_stable_unique (l1 l2 : list MeetupEvent) :
  StronglySorted (fun a b => JS.ge (key a) (key b) = true) l1 ->
  StronglySorted (fun a b => JS.ge (key a) (key b) = true) l2 ->
  (forall k, filter (sameKey k) l1 = filter (sameKey k) l2) ->
  l1 = l2.
Proof.
  assert (Hhead : forall a l b l',
            StronglySorted (fun a b => JS.ge (key a) (key b) = true) (a :: l) ->
            (forall k, filter (sameKey k) (a :: l) = filter (sameKey k) (b :: l')) ->
            JS.ge (key a) (key b) = true).
  { intros a l b l' Hs Hk.
    assert (Hb : In b (filter (sameKey (key b)) (a :: l))).
    { rewrite Hk. simpl.
      assert (Hb : sameKey (key b) b = true) by apply eqbNumber_refl.
      rewrite Hb. left. reflexivity. }
    apply filter_In in Hb. destruct Hb as [Hin _].
    inversion Hs as [| ? ? _ Hall]; subst.
    destruct Hin as [<- | Hin].
    - apply ge_refl, key_not_NaN.
    - rewrite Forall_forall in Hall. apply Hall. exact Hin. }
  intros Hs1. revert l2.
  induction l1 as [| a l1 IH]; intros [| b l2] Hs2 Hk.
  - reflexivity.
  - specialize (Hk (key b)). simpl in Hk.
    assert (Hb : sameKey (key b) b = true) by apply eqbNumber_refl.
    rewrite Hb in Hk. discriminate.
  - specialize (Hk (key a)). simpl in Hk.
    assert (Ha : sameKey (key a) a = true) by apply eqbNumber_refl.
    rewrite Ha in Hk. discriminate.
  - assert (Hkey : key a = key b).
    { apply ge_antisym.
      - eapply Hhead; [exact Hs1 | exact Hk].
      - eapply Hhead; [exact Hs2 | intro k; symmetry; apply Hk]. }
    assert (Hab : a = b).
    { specialize (Hk (key a)). simpl in Hk.
      assert (Ha : sameKey (key a) a = true) by apply eqbNumber_refl.
      assert (Hb : sameKey (key a) b = true)
        by (unfold sameKey; rewrite Hkey; apply eqbNumber_refl).
      rewrite Ha, Hb in Hk. congruence. }
    subst b. f_equal.
    inversion Hs1; inversion Hs2; subst.
    apply IH; try assumption.
    intros k. specialize (Hk k). simpl in Hk.
    destruct (sameKey k a); congruence.
Qed.

Lemma sorted_keys_descending (events : list MeetupEvent) :
  (forall e, In e events -> exists s, matchScore e = Some s /\ s <> JS.NaN) ->
  StronglySorted (fun a b => JS.ge (key a) (key b) = true) events ->
  descending events = true.
Proof.
  intros Hnum Hsorted.
  induction Hsorted as [| a l Hl IH Ha]; [reflexivity |].
  destruct l as [| b l]; [reflexivity |].
  destruct (Hnum a (or_introl eq_refl)) as (x & Hx & Hxn).
  destruct (Hnum b (or_intror (or_introl eq_refl))) as (y & Hy & Hyn).
  change (match matchScore a, matchScore b with
          | Some x, Some y => JS.ge x y && descending (b :: l)
          | _, _ => false
          end = true).
  rewrite Hx, Hy.
  rewrite IH by (intros e He; apply Hnum; right; exact He).
  inversion Ha as [| ? ? Hab _]; subst.
  rewrite (key_of_score a x Hx Hxn), (key_of_score b y Hy Hyn) in Hab.
  rewrite Hab. reflexivity.
Qed.

(** * The pipeline's properties *)

Section Pipeline.

Context {math : MathLib}.

(** C1 (as amended).  When a non-empty interests string was supplied, every
    returned event is an enriched event that received as [matchScore] the
    rating parsed from the reply to its own scoring request; whenever the
    text between the last opening bracket of that reply and the next closing
    bracket is a decimal numeral of value at most 100, the score is that
    integer, hence an integer between 0 and 100.  No other value is brought
    into that range. *)
Theorem matchScore_is_parsed_rating
    (net : Network) (origin : Coordinates) (numEvents : option JS.number)
    (interests : option string) (events : list MeetupEvent) (e : MeetupEvent) :
  supplied interests ->
  snd (findNearbyEvents net origin numEvents interests) = JS.Resolved events ->
  In e events ->
  exists i event content,
    nth_error (List.map (toEvent origin) (Feed.edges (JS.json (meetup net)))) i
      = Some event /\
    reply (openRouter net i) = JS.Resolved content /\
    e = withMatchScore event (parseRating content) /\
    matchScore e = Some (parseRating content) /\
    forall text,
      ratingText content = Some text ->
      isDecimal text = true ->
      decimalValue text <= 100 ->
      matchScore e = Some (JS.Int (decimalValue text)) /\
      0 <= decimalValue text <= 100.
Proof.
  intros Hsup Hres Hin.
  destruct (findNearbyEvents_resolved _ _ _ _ _ Hres)
    as (_ & [(Hnone & _) | (_ & scored & Hscored & ->)]); [contradiction |].
  apply -> In_sort_byMatchScore in Hin.
  destruct (scoredFrom_In _ _ _ _ Hscored Hin)
    as (i & event & content & Hi & Hreply & ->).
  exists i, event, content.
  split; [exact Hi |]. split; [exact Hreply |].
  split; [reflexivity |]. split; [reflexivity |].
  intros text Htext Hdec Hle. simpl.
  destruct (parseRating_percentage _ _ Htext Hdec Hle) as [-> Hrange].
  split; [reflexivity | exact Hrange].
Qed.

(** C2 (the code at the failing input).  A reply in plain prose, without any
    bracket, is rated [NaN], not [0]: the promise of [generateMatchRating]
    is fulfilled with [NaN]. *)
Theorem prose_reply_is_rated_NaN (event : MeetupEvent) (interests : string) :
  snd (generateMatchRating (completion "An excellent match.") event interests)
  = JS.Resolved JS.NaN.
Proof. rewrite snd_generateMatchRating. reflexivity. Qed.

(** X9.  When every score is a number, the returned sequence is descending
    in [matchScore], it is a rearrangement of the scored events, and events
    with one and the same score keep the order of the scored sequence. *)
Lemma ranking_sorted_and_stable
    (net : Network) (origin : Coordinates) (numEvents : option JS.number)
    (interests : option string) (events : list MeetupEvent) :
  supplied interests ->
  snd (findNearbyEvents net origin numEvents interests) = JS.Resolved events ->
  exists scored,
    scoredFrom net (enriched net origin) scored /\
    Permutation scored events /\
    (forall s, filter (hasScore s) events = filter (hasScore s) scored) /\
    ((forall e, In e events -> matchScore e <> Some JS.NaN) ->
     descending events = true).
Proof.
  intros Hsup Hres.
  destruct (findNearbyEvents_resolved _ _ _ _ _ Hres)
    as (_ & [(Hnone & _) | (_ & scored & Hscored & ->)]); [contradiction |].
  exists scored. split; [exact Hscored |]. split; [| split].
  - apply Permutation_sym, sort_permutation.
  - intros s. apply sort_byMatchScore_stable.
  - intros Hnum. apply sorted_keys_descending; [| apply sort_byMatchScore_sorted].
    intros e He. specialize (Hnum e He).
    apply -> In_sort_byMatchScore in He.
    destruct (scoredFrom_In _ _ _ _ Hscored He) as (i & event & content & _ & _ & ->).
    simpl in *. exists (parseRating content). split; [reflexivity | congruence].
Qed.

(** The result is the only arrangement of the scored events that is
    ordered by decreasing key and keeps every key class in its order. *)
Lemma ranking_unique (scored events : list MeetupEvent) :
  StronglySorted (fun a b => JS.ge (key a) (key b) = true) events ->
  (forall k, filter (sameKey k) events = filter (sameKey k) scored) ->
  events = JS.sort byMatchScore scored.
Proof.
  intros Hsorted Hstable. apply sorted_stable_unique.
  - exact Hsorted.
  - apply sort_byMatchScore_sorted.
  - intros k. rewrite sort_byMatchScore_keeps_key_class. apply Hstable.
Qed.

(** X4.  Each request is sent once: the feed query, asking for [numEvents]
    events (10 by default) at the origin, then, when the feed answered with
    success and interests were supplied, one completion request per enriched
    event, in the feed's order and whatever the outcome of the others; no
    completion request is sent otherwise. *)
Lemma findNearbyEvents_requests
    (net : Network) (origin : Coordinates) (numEvents : option JS.number)
    (interests : option string) :
  fst (findNearbyEvents net origin numEvents interests) =
  MeetupQuery (match numEvents with Some n => n | None => JS.Int 10 end)
    (latitude origin) (longitude origin)
  :: match interests with
     | Some (String c rest) =>
         if JS.ok (meetup net) then
           List.map (fun event => OpenRouterChat (promptFor (String c rest) event))
             (enriched net origin)
         else []
     | _ => []
     end.
Proof.
  assert (Hsent : forall text events k,
            List.concat (List.map fst (JS.mapi_from k (scoreEvent net text) events)) =
            List.map (fun event => OpenRouterChat (promptFor text event)) events).
  { intros text events. induction events as [| event events IH]; intros k;
      [reflexivity |].
    simpl. rewrite IH. f_equal.
    unfold scoreEvent, generateMatchRating, openRouterRequest, JS.bind, JS.fetch,
      JS.tryCatch.
    destruct (JS.ok (openRouter net k)); simpl; [| reflexivity].
    destruct (choices (JS.json (openRouter net k))); reflexivity. }
  unfold findNearbyEvents, JS.bind at 1, JS.fetch.
  destruct (JS.ok (meetup net)); simpl.
  2:{ destruct interests as [[| c rest] |]; reflexivity. }
  destruct interests as [[| c rest] |]; try reflexivity.
  unfold JS.bind, JS.promiseAll, JS.mapi. rewrite Hsent.
  match goal with
  | |- context [match ?m with JS.Resolved _ => _ | JS.Rejected _ => _ end] =>
      destruct m
  end; simpl; [rewrite app_nil_r |]; reflexivity.
Qed.

(** C4.  An event returned by [findNearbyEvents] has [matchScore] set if and
    only if a non-empty interests string was supplied; without one no
    returned event has it. *)
Theorem matchScore_set_iff_interests
    (net : Network) (origin : Coordinates) (numEvents : option JS.number)
    (interests : option string) (events : list MeetupEvent) (e : MeetupEvent) :
  snd (findNearbyEvents net origin numEvents interests) = JS.Resolved events ->
  In e events ->
  (matchScore e <> None <-> supplied interests) /\
  (interests = None \/ interests = Some "" -> matchScore e = None).
Proof.
  intros Hres Hin.
  destruct (findNearbyEvents_resolved _ _ _ _ _ Hres)
    as (_ & [(Hnone & ->) | (Hsup & scored & Hscored & ->)]).
  - apply in_map_iff in Hin. destruct Hin as (node & <- & _).
    rewrite toEvent_matchScore. repeat split; try congruence; contradiction.
  - apply -> In_sort_byMatchScore in Hin.
    destruct (scoredFrom_In _ _ _ _ Hscored Hin) as (i & event & content & _ & _ & ->).
    simpl. repeat split; try congruence.
    destruct Hsup as (c & rest & ->). intros [H | H]; discriminate.
Qed.

(** C5.  When interests is absent or the empty string, the call returns the
    enriched events in the order of the feed's nodes. *)
Theorem no_interests_keeps_feed_order
    (net : Network) (origin : Coordinates) (numEvents : option JS.number)
    (interests : option string) :
  JS.ok (meetup net) = true ->
  interests = None \/ interests = Some "" ->
  snd (findNearbyEvents net origin numEvents interests) =
  JS.Resolved (List.map (toEvent origin) (Feed.edges (JS.json (meetup net)))).
Proof.
  intros Hok Hnone. apply findNearbyEvents_unranked; [exact Hok |].
  intros (c & rest & ->). destruct Hnone; discriminate.
Qed.


(** C7.  When the feed's response is not a success, the call is rejected
    with an error carrying the feed's status text; the feed request is the
    only request sent, once, and no event is returned. *)
Theorem feed_failure_rejects
    (net : Network) (origin : Coordinates) (numEvents : option JS.number)
    (interests : option string) :
  transportFailure (meetup net) ->
  findNearbyEvents net origin numEvents interests =
  ([MeetupQuery (match numEvents with Some n => n | None => JS.Int 10 end)
      (latitude origin) (longitude origin)],
   JS.Rejected (JS.Err ("Meetup API error: " ++ JS.statusText (meetup net)))).
Proof.
  unfold transportFailure. intros Hok. unfold findNearbyEvents, JS.fetch, JS.bind.
  rewrite Hok. reflexivity.
Qed.


(** C9.  In the mapping of a feed node to an event, [maxTickets] is absent
    when the feed reports [null] or a falsy number, zero in particular, and
    is the feed's value when the feed reports a positive integer. *)
Theorem maxTickets_zero_is_absent (origin : Coordinates) (node : Feed.Node) :
  (Feed.maxTickets node = None \/
   Feed.maxTickets node = Some (JS.Int 0) \/
   Feed.maxTickets node = Some JS.NaN ->
   maxTickets (toEvent origin node) = None) /\
  (forall n, 0 < n -> Feed.maxTickets node = Some (JS.Int n) ->
   maxTickets (toEvent origin node) = Some (JS.Int n)).
Proof.
  rewrite toEvent_maxTickets. split.
  - intros [-> | [-> | ->]]; reflexivity.
  - intros n Hn ->. simpl.
    destruct (Z.eqb_spec n 0); [lia | reflexivity].
Qed.

(** C10.  The scoring step changes nothing but [matchScore]: the scored
    sequence has the length of the enriched one, its [i]-th event has the
    fields of the [i]-th enriched event, [matchScore] apart, and the result
    is the scored sequence sorted. *)
Theorem scoring_changes_only_matchScore
    (net : Network) (origin : Coordinates) (numEvents : option JS.number)
    (interests : option string) (events : list MeetupEvent) :
  supplied interests ->
  snd (findNearbyEvents net origin numEvents interests) = JS.Resolved events ->
  exists scored,
    events = JS.sort byMatchScore scored /\
    List.length scored =
      List.length (List.map (toEvent origin) (Feed.edges (JS.json (meetup net)))) /\
    forall i event,
      nth_error (List.map (toEvent origin) (Feed.edges (JS.json (meetup net)))) i
        = Some event ->
      exists scoredEvent,
        nth_error scored i = Some scoredEvent /\
        sameButMatchScore event scoredEvent.
Proof.
  intros Hsup Hres.
  destruct (findNearbyEvents_resolved _ _ _ _ _ Hres)
    as (_ & [(Hnone & _) | (_ & scored & [Hlen Hat] & ->)]); [contradiction |].
  exists scored. split; [reflexivity |]. split; [exact Hlen |].
  intros i event Hi.
  destruct (Hat i event Hi) as (content & _ & Hsc).
  eexists. split; [exact Hsc |].
  unfold sameButMatchScore. simpl. repeat split.
Qed.

End Pipeline.

(** ** The samples *)

Example split_brackets : JS.split "{" "a{b{c" = ["a"; "b"; "c"].
Proof. reflexivity. Qed.

Example split_without_separator : JS.split "{" "abc" = ["abc"].
Proof. reflexivity. Qed.

Example split_empty_string : JS.split "{" "" = [""].
Proof. reflexivity. Qed.

Example parseInt_trailing_text : JS.parseInt " 74 percent" = JS.Int 74.
Proof. reflexivity. Qed.

Example parseInt_negative : JS.parseInt "-5" = JS.Int (-5).
Proof. reflexivity. Qed.

Example toNumber_rounds_to_even : JS.toNumber (2 ^ 53 + 1) = JS.Int (2 ^ 53).
Proof. vm_compute. reflexivity. Qed.

Example toNumber_overflows : JS.toNumber (10 ^ 400) = JS.Infinity false.
Proof. vm_compute. reflexivity. Qed.

Example parseRating_last_bracket :
  parseRating "Between {10} and {74}, so {74}." = JS.Int 74.
Proof. reflexivity. Qed.

Example parseRating_empty_bracket : parseRating "No rating {}" = JS.Int 0.
Proof. reflexivity. Qed.

Example parseRating_leading_digits : parseRating "12 of 100" = JS.Int 12.
Proof. reflexivity. Qed.

(** Scenario C: the event rated 85 comes before the one rated 40. *)
Example ranked_scenario :
  snd (findNearbyEvents (math := seriesMath) rankedNet atlanta None jazzConcerts) =
  JS.Resolved [withMatchScore jazzEvent (JS.Int 85);
               withMatchScore bookEvent (JS.Int 40)].
Proof. vm_compute. reflexivity. Qed.

(** C1 (counterexample).  A reply ending in [{150}] gives the returned event
    the [matchScore] 150. *)
Lemma matchScore_above_100 :
  ~ (forall events e,
       snd (findNearbyEvents (math := seriesMath) overratedNet atlanta None jazzConcerts)
         = JS.Resolved events ->
       In e events ->
       exists s, matchScore e = Some s /\ JS.isPercentage s = true).
Proof.
  intros Hrange.
  assert (Hres : snd (findNearbyEvents (math := seriesMath) overratedNet atlanta None
                        jazzConcerts)
                 = JS.Resolved [withMatchScore jazzEvent (JS.Int 150)])
    by (vm_compute; reflexivity).
  destruct (Hrange _ _ Hres (or_introl eq_refl)) as (s & Hs & Hp).
  simpl in Hs. injection Hs as <-. discriminate Hp.
Qed.

(** C3 (the code at the failing input).  With one reply in plain prose and
    one ending in [{5}], the events are returned with the scores 5 and
    [NaN], in this order, and [5 >= NaN] is false. *)
Theorem prose_reply_breaks_descending_order :
  snd (findNearbyEvents (math := seriesMath) proseNet atlanta None jazzConcerts) =
  JS.Resolved [withMatchScore bookEvent (JS.Int 5);
               withMatchScore jazzEvent JS.NaN] /\
  descending [withMatchScore bookEvent (JS.Int 5);
              withMatchScore jazzEvent JS.NaN] = false.
Proof. split; vm_compute; reflexivity. Qed.


(** ** The properties on the samples *)

Lemma matchScore_is_parsed_rating_sample :
  supplied jazzConcerts /\
  snd (findNearbyEvents (math := seriesMath) rankedNet atlanta None jazzConcerts) =
    JS.Resolved [withMatchScore jazzEvent (JS.Int 85);
                 withMatchScore bookEvent (JS.Int 40)] /\
  In (withMatchScore jazzEvent (JS.Int 85))
     [withMatchScore jazzEvent (JS.Int 85); withMatchScore bookEvent (JS.Int 40)] /\
  exists i event content,
    nth_error (List.map (toEvent (math := seriesMath) atlanta)
                 (Feed.edges (JS.json (meetup rankedNet)))) i = Some event /\
    reply (openRouter rankedNet i) = JS.Resolved content /\
    withMatchScore jazzEvent (JS.Int 85) = withMatchScore event (parseRating content) /\
    matchScore (withMatchScore jazzEvent (JS.Int 85)) = Some (parseRating content) /\
    forall text,
      ratingText content = Some text ->
      isDecimal text = true ->
      decimalValue text <= 100 ->
      matchScore (withMatchScore jazzEvent (JS.Int 85))
        = Some (JS.Int (decimalValue text)) /\
      0 <= decimalValue text <= 100.
Proof.
  assert (Hsup : supplied jazzConcerts) by (do 2 eexists; reflexivity).
  assert (Hres : snd (findNearbyEvents (math := seriesMath) rankedNet atlanta None
                        jazzConcerts)
                 = JS.Resolved [withMatchScore jazzEvent (JS.Int 85);
                                withMatchScore bookEvent (JS.Int 40)])
    by (vm_compute; reflexivity).
  assert (Hin : In (withMatchScore jazzEvent (JS.Int 85))
                  [withMatchScore jazzEvent (JS.Int 85);
                   withMatchScore bookEvent (JS.Int 40)])
    by (left; reflexivity).
  split; [exact Hsup |]. split; [exact Hres |]. split; [exact Hin |].
  exact (matchScore_is_parsed_rating (math := seriesMath) rankedNet atlanta None
           jazzConcerts _ _ Hsup Hres Hin).
Defined.

Lemma matchScore_set_iff_interests_sample :
  snd (findNearbyEvents (math := seriesMath) rankedNet atlanta None jazzConcerts) =
    JS.Resolved [withMatchScore jazzEvent (JS.Int 85);
                 withMatchScore bookEvent (JS.Int 40)] /\
  In (withMatchScore bookEvent (JS.Int 40))
     [withMatchScore jazzEvent (JS.Int 85); withMatchScore bookEvent (JS.Int 40)] /\
  (matchScore (withMatchScore bookEvent (JS.Int 40)) <> None <-> supplied jazzConcerts) /\
  (jazzConcerts = None \/ jazzConcerts = Some "" ->
   matchScore (withMatchScore bookEvent (JS.Int 40)) = None).
Proof.
  assert (Hres : snd (findNearbyEvents (math := seriesMath) rankedNet atlanta None
                        jazzConcerts)
                 = JS.Resolved [withMatchScore jazzEvent (JS.Int 85);
                                withMatchScore bookEvent (JS.Int 40)])
    by (vm_compute; reflexivity).
  assert (Hin : In (withMatchScore bookEvent (JS.Int 40))
                  [withMatchScore jazzEvent (JS.Int 85);
                   withMatchScore bookEvent (JS.Int 40)])
    by (right; left; reflexivity).
  split; [exact Hres |]. split; [exact Hin |].
  exact (matchScore_set_iff_interests (math := seriesMath) rankedNet atlanta None
           jazzConcerts _ _ Hres Hin).
Defined.

Lemma no_interests_keeps_feed_order_sample :
  JS.ok (meetup unscoredNet) = true /\
  (@None string = None \/ @None string = Some "") /\
  snd (findNearbyEvents (math := seriesMath) unscoredNet atlanta None None) =
  JS.Resolved (List.map (toEvent (math := seriesMath) atlanta)
                 (Feed.edges (JS.json (meetup unscoredNet)))).
Proof.
  assert (Hok : JS.ok (meetup unscoredNet) = true) by reflexivity.
  assert (Hnone : @None string = None \/ @None string = Some "")
    by (left; reflexivity).
  split; [exact Hok |]. split; [exact Hnone |].
  exact (no_interests_keeps_feed_order (math := seriesMath) unscoredNet atlanta None
           None Hok Hnone).
Defined.


Lemma feed_failure_rejects_sample :
  transportFailure (meetup downFeedNet) /\
  findNearbyEvents (math := seriesMath) downFeedNet atlanta None jazzConcerts =
  ([MeetupQuery (JS.Int 10) (latitude atlanta) (longitude atlanta)],
   JS.Rejected (JS.Err ("Meetup API error: " ++ JS.statusText (meetup downFeedNet)))).
Proof.
  assert (Hfail : transportFailure (meetup downFeedNet)) by reflexivity.
  split; [exact Hfail |].
  exact (feed_failure_rejects (math := seriesMath) downFeedNet atlanta None
           jazzConcerts Hfail).
Defined.


Lemma maxTickets_zero_is_absent_sample :
  (Feed.maxTickets bookClub = Some (JS.Int 0) /\
   maxTickets (toEvent (math := seriesMath) atlanta bookClub) = None) /\
  (0 < 40 /\
   Feed.maxTickets jazzNight = Some (JS.Int 40) /\
   maxTickets (toEvent (math := seriesMath) atlanta jazzNight) = Some (JS.Int 40)).
Proof.
  assert (Hzero : Feed.maxTickets bookClub = Some (JS.Int 0)) by reflexivity.
  assert (Hpos : 0 < 40) by lia.
  assert (Hforty : Feed.maxTickets jazzNight = Some (JS.Int 40)) by reflexivity.
  split.
  - split; [exact Hzero |].
    exact (proj1 (maxTickets_zero_is_absent (math := seriesMath) atlanta bookClub)
             (or_intror (or_introl Hzero))).
  - split; [exact Hpos |]. split; [exact Hforty |].
    exact (proj2 (maxTickets_zero_is_absent (math := seriesMath) atlanta jazzNight)
             40 Hpos Hforty).
Defined.

Lemma scoring_changes_only_matchScore_sample :
  supplied jazzConcerts /\
  snd (findNearbyEvents (math := seriesMath) rankedNet atlanta None jazzConcerts) =
    JS.Resolved [withMatchScore jazzEvent (JS.Int 85);
                 withMatchScore bookEvent (JS.Int 40)] /\
  exists scored,
    [withMatchScore jazzEvent (JS.Int 85); withMatchScore bookEvent (JS.Int 40)]
      = JS.sort byMatchScore scored /\
    List.length scored =
      List.length (List.map (toEvent (math := seriesMath) atlanta)
                     (Feed.edges (JS.json (meetup rankedNet)))) /\
    forall i event,
      nth_error (List.map (toEvent (math := seriesMath) atlanta)
                   (Feed.edges (JS.json (meetup rankedNet)))) i = Some event ->
      exists scoredEvent,
        nth_error scored i = Some scoredEvent /\
        sameButMatchScore event scoredEvent.
Proof.
  assert (Hsup : supplied jazzConcerts) by (do 2 eexists; reflexivity).
  assert (Hres : snd (findNearbyEvents (math := seriesMath) rankedNet atlanta None
                        jazzConcerts)
                 = JS.Resolved [withMatchScore jazzEvent (JS.Int 85);
                                withMatchScore bookEvent (JS.Int 40)])
    by (vm_compute; reflexivity).
  split; [exact Hsup |]. split; [exact Hres |].
  exact (scoring_changes_only_matchScore (math := seriesMath) rankedNet atlanta None
           jazzConcerts _ Hsup Hres).
Defined.

(** * Further properties *)

(** ** Splitting a reply *)

Lemma split_not_nil (sep : ascii) (s : string) : JS.split sep s <> [].
Proof.
  destruct s as [| c rest]; simpl; [discriminate |].
  destruct (Ascii.eqb c sep); [discriminate |].
  destruct (JS.split sep rest); discriminate.
Qed.

Lemma split_without_sep (sep : ascii) (s : string) :
  noChar sep s = true -> JS.split sep s = [s].
Proof.
  induction s as [| c rest IH]; simpl; [reflexivity |].
  destruct (Ascii.eqb c sep); simpl; [discriminate |].
  intros Hrest. rewrite (IH Hrest). reflexivity.
Qed.

(** The pieces of [p sep rest] are the pieces of [p] followed by the pieces
    of [rest]. *)
Lemma split_app (sep : ascii) (p rest : string) :
  JS.split sep (p ++ String sep rest) = (JS.split sep p ++ JS.split sep rest)%list.
Proof.
  induction p as [| c p IH]; simpl.
  - rewrite Ascii.eqb_refl. reflexivity.
  - destruct (Ascii.eqb c sep); [rewrite IH; reflexivity |].
    rewrite IH. pose proof (split_not_nil sep p) as Hp.
    destruct (JS.split sep p) as [| piece pieces]; [contradiction | reflexivity].
Qed.

Lemma pop_app {A : Type} (l1 l2 : list A) :
  l2 <> [] -> JS.pop (l1 ++ l2)%list = JS.pop l2.
Proof.
  intros Hl2. induction l1 as [| x l1 IH]; [reflexivity |].
  simpl. rewrite IH.
  destruct (l1 ++ l2)%list eqn:Happ; [| reflexivity].
  apply app_eq_nil in Happ. destruct Happ as [_ ->]. contradiction.
Qed.

Lemma noChar_app (c : ascii) (s t : string) :
  noChar c (s ++ t) = noChar c s && noChar c t.
Proof.
  induction s as [| c' s IH]; simpl; [reflexivity |].
  rewrite IH. apply andb_assoc.
Qed.

(** The text the scorer reads is the one that follows the last opening
    bracket, up to the next closing bracket. *)
Lemma ratingText_last_bracket (prefix inside tail : string) :
  noChar "{" inside = true ->
  noChar "}" inside = true ->
  closesBracket tail = true ->
  ratingText (prefix ++ "{" ++ inside ++ tail) = Some inside.
Proof.
  intros Hopen Hclose Htail. unfold ratingText.
  change ("{" ++ inside ++ tail) with (String "{" (inside ++ tail)).
  rewrite split_app, pop_app by apply split_not_nil.
  assert (Hrest : noChar "{" (inside ++ tail) = true).
  { rewrite noChar_app, Hopen. destruct tail as [| c suffix]; [reflexivity |].
    simpl in Htail |- *. apply andb_true_iff in Htail. destruct Htail as [Hc ->].
    apply Ascii.eqb_eq in Hc. subst c. reflexivity. }
  rewrite (split_without_sep _ _ Hrest). simpl JS.pop. cbv iota.
  destruct tail as [| c suffix].
  - replace (inside ++ "") with inside
      by (clear; induction inside as [| c s IH]; simpl; congruence).
    rewrite (split_without_sep _ _ Hclose). reflexivity.
  - simpl in Htail. apply andb_true_iff in Htail. destruct Htail as [Hc _].
    apply Ascii.eqb_eq in Hc. subst c.
    rewrite split_app, (split_without_sep _ _ Hclose). reflexivity.
Qed.

(** ** Reading a numeral *)

Lemma trimStart_app (ws s : string) :
  allWhiteSpace ws = true -> JS.trimStart (ws ++ s) = JS.trimStart s.
Proof.
  unfold allWhiteSpace. induction ws as [| c ws IH]; simpl; [reflexivity |].
  intros H. apply andb_true_iff in H. destruct H as [-> Hws]. apply IH, Hws.
Qed.

Lemma digitsPrefix_app (text rest : string) :
  isDecimal text = true ->
  noLeadingDigit rest = true ->
  JS.digitsPrefix (text ++ rest) = JS.digitsPrefix text.
Proof.
  intros Hdec Hrest.
  assert (Hall : forallb (fun c => match JS.digitValue c with
                                   | Some _ => true
                                   | None => false
                                   end) (list_ascii_of_string text) = true).
  { destruct text; [discriminate | exact Hdec]. }
  clear Hdec. induction text as [| c text IH]; cbn [append JS.digitsPrefix].
  - destruct rest as [| c rest]; [reflexivity |].
    unfold noLeadingDigit in Hrest. cbn [JS.digitsPrefix].
    destruct (JS.digitValue c); [discriminate | reflexivity].
  - cbn [list_ascii_of_string forallb] in Hall.
    destruct (JS.digitValue c); [| discriminate].
    rewrite IH by exact Hall. reflexivity.
Qed.

Lemma digitsPrefix_decimal (text : string) :
  isDecimal text = true -> JS.digitsPrefix text <> [].
Proof.
  destruct text as [| c rest]; [discriminate |].
  cbn [isDecimal list_ascii_of_string forallb JS.digitsPrefix].
  destruct (JS.digitValue c); discriminate.
Qed.

(** [parseInt] on white space, an optional sign, a numeral and whatever
    follows the numeral. *)
Lemma parseInt_numeral (ws text rest : string) (negative : bool) (sign : string) :
  allWhiteSpace ws = true ->
  sign = (if negative then "-" else "") \/ (negative = false /\ sign = "+") ->
  isDecimal text = true ->
  noLeadingDigit rest = true ->
  JS.parseInt (ws ++ sign ++ text ++ rest) =
  JS.toNumber ((if negative then -1 else 1) * decimalValue text).
Proof.
  intros Hws Hsign Hdec Hrest.
  pose proof (digitsPrefix_decimal text Hdec) as Hne.
  pose proof (digitsPrefix_app text rest Hdec Hrest) as Happ.
  unfold JS.parseInt. rewrite trimStart_app by exact Hws.
  unfold decimalValue.
  destruct Hsign as [-> | [-> ->]]; [destruct negative |].
  - change ("-" ++ text ++ rest) with (String "-" (text ++ rest)).
    cbn -[JS.toNumber Z.mul JS.mathInt JS.digitsPrefix].
    rewrite Happ. destruct (JS.digitsPrefix text); [contradiction | reflexivity].
  - change ("" ++ text ++ rest) with (text ++ rest).
    destruct text as [| c text]; [discriminate |].
    simpl in Hdec. destruct (JS.digitValue c) as [d |] eqn:Hd; [| discriminate].
    change (String c text ++ rest) with (String c (text ++ rest)).
    fold (JS.parseInt (String c (text ++ rest))).
    rewrite (parseInt_digit_first _ _ _ Hd).
    change (String c (text ++ rest)) with (String c text ++ rest).
    rewrite Happ, Z.mul_1_l. reflexivity.
  - change ("+" ++ text ++ rest) with (String "+" (text ++ rest)).
    cbn -[JS.toNumber Z.mul JS.mathInt JS.digitsPrefix].
    rewrite Happ. destruct (JS.digitsPrefix text); [contradiction | reflexivity].
Qed.

Lemma append_assoc (s t u : string) : (s ++ t) ++ u = s ++ t ++ u.
Proof. induction s as [| c s IH]; simpl; congruence. Qed.

Lemma append_empty (s t : string) : s ++ t = "" -> s = "" /\ t = "".
Proof. destruct s; simpl; [auto | discriminate]. Qed.

Lemma noChar_whiteSpace (c : ascii) (ws : string) :
  JS.isWhiteSpace c = false -> allWhiteSpace ws = true -> noChar c ws = true.
Proof.
  intros Hc. unfold allWhiteSpace.
  induction ws as [| c' ws IH]; simpl; [reflexivity |].
  intros H. apply andb_true_iff in H. destruct H as [Hc' Hws].
  rewrite (IH Hws), andb_true_r.
  destruct (Ascii.eqb_spec c' c) as [-> |]; [congruence | reflexivity].
Qed.

Lemma noChar_decimal (c : ascii) (text : string) :
  JS.digitValue c = None -> isDecimal text = true -> noChar c text = true.
Proof.
  intros Hc Hdec.
  assert (Hall : forallb (fun c => match JS.digitValue c with
                                   | Some _ => true
                                   | None => false
                                   end) (list_ascii_of_string text) = true).
  { destruct text; [discriminate | exact Hdec]. }
  clear Hdec. induction text as [| c' text IH]; [reflexivity |].
  cbn [list_ascii_of_string forallb] in Hall. cbn [noChar].
  apply andb_true_iff in Hall. destruct Hall as [Hc' Hall].
  rewrite (IH Hall), andb_true_r.
  destruct (Ascii.eqb_spec c' c) as [-> |]; [| reflexivity].
  rewrite Hc in Hc'. discriminate.
Qed.

Lemma snd_generateMatchRating_reply (answer : JS.Response OpenRouterResponse)
    (event : MeetupEvent) (interests content : string) :
  reply answer = JS.Resolved content ->
  snd (generateMatchRating answer event interests) = JS.Resolved (parseRating content).
Proof. intros H. rewrite snd_generateMatchRating, H. reflexivity. Qed.

(** ** The scorer on the shapes of a reply *)

(** X1.  Only the last opening bracket of a reply counts: the rating is read
    from the text between it and the next closing bracket (or the end of the
    reply), whatever precedes the bracket and whatever follows the closing
    one; an empty text is rated 0. *)
Theorem last_bracket_decides
    (answer : JS.Response OpenRouterResponse) (event : MeetupEvent)
    (interests prefix inside tail : string) :
  reply answer = JS.Resolved (prefix ++ "{" ++ inside ++ tail) ->
  noChar "{" inside = true ->
  noChar "}" inside = true ->
  closesBracket tail = true ->
  snd (generateMatchRating answer event interests) =
  JS.Resolved (match inside with
               | EmptyString => JS.Int 0
               | _ => JS.parseInt inside
               end).
Proof.
  intros Hreply Hopen Hclose Htail.
  rewrite (snd_generateMatchRating_reply _ _ _ _ Hreply).
  unfold parseRating.
  rewrite (ratingText_last_bracket _ _ _ Hopen Hclose Htail).
  destruct inside; reflexivity.
Qed.

(** X2.  Inside the last bracket, leading white space is skipped, a sign is
    read, and what follows the numeral is ignored: the rating is the Number
    value of the signed numeral, so it can be negative or exceed 100. *)
Theorem bracketed_numeral_is_the_rating
    (answer : JS.Response OpenRouterResponse) (event : MeetupEvent)
    (interests prefix ws sign text rest tail : string) (negative : bool) :
  reply answer = JS.Resolved (prefix ++ "{" ++ ws ++ sign ++ text ++ rest ++ tail) ->
  allWhiteSpace ws = true ->
  sign = (if negative then "-" else "") \/ (negative = false /\ sign = "+") ->
  isDecimal text = true ->
  noLeadingDigit rest = true ->
  noChar "{" rest = true ->
  noChar "}" rest = true ->
  closesBracket tail = true ->
  snd (generateMatchRating answer event interests) =
  JS.Resolved (JS.toNumber ((if negative then -1 else 1) * decimalValue text)).
Proof.
  intros Hreply Hws Hsign Hdec Hlead Hopen Hclose Htail.
  set (inside := ws ++ sign ++ text ++ rest).
  assert (Hshape : ws ++ sign ++ text ++ rest ++ tail = inside ++ tail).
  { unfold inside. rewrite !append_assoc. reflexivity. }
  assert (Hsign' : noChar "{" sign = true /\ noChar "}" sign = true).
  { destruct Hsign as [-> | [_ ->]]; [destruct negative |]; split; reflexivity. }
  assert (Hin : noChar "{" inside = true /\ noChar "}" inside = true).
  { unfold inside. rewrite !noChar_app.
    rewrite (noChar_whiteSpace "{" ws), (noChar_whiteSpace "}" ws) by easy.
    rewrite (noChar_decimal "{" text), (noChar_decimal "}" text) by easy.
    destruct Hsign' as [-> ->]. rewrite Hopen, Hclose. split; reflexivity. }
  rewrite Hshape in Hreply.
  rewrite (snd_generateMatchRating_reply _ _ _ _ Hreply).
  unfold parseRating.
  rewrite (ratingText_last_bracket prefix inside tail (proj1 Hin) (proj2 Hin) Htail).
  assert (Hne : inside <> "").
  { unfold inside. intros Hempty.
    apply append_empty in Hempty. destruct Hempty as [_ Hempty].
    apply append_empty in Hempty. destruct Hempty as [_ Hempty].
    apply append_empty in Hempty. destruct Hempty as [Htext _].
    subst text. discriminate. }
  rewrite <- (parseInt_numeral ws text rest negative sign Hws Hsign Hdec Hlead).
  fold inside. destruct inside; [contradiction | reflexivity].
Qed.

(** X3.  A reply without any bracket is read as a whole: the rating is what
    [parseInt] makes of the entire reply ([NaN] unless, after white space
    and a sign, it starts with a digit), and 0 for the empty reply. *)
Theorem reply_without_bracket_is_read_whole
    (answer : JS.Response OpenRouterResponse) (event : MeetupEvent)
    (interests content : string) :
  reply answer = JS.Resolved content ->
  noChar "{" content = true ->
  noChar "}" content = true ->
  snd (generateMatchRating answer event interests) =
  JS.Resolved (match content with
               | EmptyString => JS.Int 0
               | _ => JS.parseInt content
               end).
Proof.
  intros Hreply Hopen Hclose.
  rewrite (snd_generateMatchRating_reply _ _ _ _ Hreply).
  unfold parseRating, ratingText.
  rewrite (split_without_sep _ _ Hopen). simpl JS.pop. cbv iota.
  rewrite (split_without_sep _ _ Hclose). simpl nth_error.
  destruct content; reflexivity.
Qed.

(** ** Settling a batch *)



Lemma firstRejected_app {A : Type} (pre post : list nat) (j : nat)
    (ps : list (JS.Settled A)) (e : JS.Error) :
  (forall i, In i pre -> forall e', nth_error ps i <> Some (JS.Rejected e')) ->
  nth_error ps j = Some (JS.Rejected e) ->
  JS.firstRejected (pre ++ j :: post) ps = Some e.
Proof.
  intros Hpre Hj. induction pre as [| i pre IH]; simpl.
  - rewrite Hj. reflexivity.
  - destruct (nth_error ps i) as [[v | e'] |] eqn:Hi.
    + apply IH. intros k Hk. apply Hpre. right. exact Hk.
    + exfalso. apply (Hpre i (or_introl eq_refl) e'). exact Hi.
    + apply IH. intros k Hk. apply Hpre. right. exact Hk.
Qed.

Lemma nth_error_scoring (net : Network) (interests : string)
    (events : list MeetupEvent) (i : nat) :
  nth_error (List.map snd (JS.mapi (scoreEvent net interests) events)) i =
  match nth_error events i with
  | Some event =>
      Some (match reply (openRouter net i) with
            | JS.Resolved content =>
                JS.Resolved (withMatchScore event (parseRating content))
            | JS.Rejected e => JS.Rejected e
            end)
  | None => None
  end.
Proof.
  rewrite nth_error_map, nth_error_mapi.
  destruct (nth_error events i); simpl; [rewrite snd_scoreEvent |]; reflexivity.
Qed.




Lemma withoutMatchScore_unscored (event : MeetupEvent) :
  matchScore event = None -> withoutMatchScore event = event.
Proof. destruct event; simpl; intros ->; reflexivity. Qed.

Lemma scoredFrom_erase (net : Network) (events scored : list MeetupEvent) :
  scoredFrom net events scored ->
  (forall e, In e events -> matchScore e = None) ->
  List.map withoutMatchScore scored = events.
Proof.
  intros [Hlen Hat] Hnone. apply nth_error_ext. intros n.
  rewrite nth_error_map.
  destruct (nth_error events n) as [event |] eqn:Hev.
  - destruct (Hat n event Hev) as (content & _ & ->).
    cbn [option_map]. f_equal.
    transitivity (withoutMatchScore event); [reflexivity |].
    apply withoutMatchScore_unscored, Hnone.
    eapply nth_error_In. exact Hev.
  - apply nth_error_None in Hev. rewrite <- Hlen in Hev.
    apply nth_error_None in Hev. rewrite Hev. reflexivity.
Qed.

Lemma enriched_unscored {math : MathLib} (net : Network) (origin : Coordinates)
    (e : MeetupEvent) :
  In e (enriched net origin) -> matchScore e = None.
Proof.
  unfold enriched. intros Hin. apply in_map_iff in Hin.
  destruct Hin as (node & <- & _). apply toEvent_matchScore.
Qed.

Lemma filter_all {A : Type} (P : A -> bool) (l : list A) :
  (forall x, In x l -> P x = true) -> filter P l = l.
Proof.
  induction l as [| x l IH]; intros Hall; simpl; [reflexivity |].
  rewrite (Hall x (or_introl eq_refl)), IH; [reflexivity |].
  intros y Hy. apply Hall. right. exact Hy.
Qed.

(** ** The orchestrator: when it succeeds, when it fails, what it returns *)

Section MorePipeline.

Context {math : MathLib}.



(** X7.  Of several rejected scoring requests, the one settled first gives
    the reason of the call: if the requests settled before request [j] were
    all answered with a reply and request [j] is rejected, the call is
    rejected with the reason of request [j], whatever settles later. *)
Theorem first_settled_rejection_is_reported
    (net : Network) (origin : Coordinates) (numEvents : option JS.number)
    (interests : option string) (before after : list nat) (j : nat)
    (reason : JS.Error) :
  JS.ok (meetup net) = true ->
  supplied interests ->
  settleOrder net = (before ++ j :: after)%list ->
  (forall i, In i before ->
     exists content, reply (openRouter net i) = JS.Resolved content) ->
  (j < List.length (Feed.edges (JS.json (meetup net))))%nat ->
  reply (openRouter net j) = JS.Rejected reason ->
  snd (findNearbyEvents net origin numEvents interests) = JS.Rejected reason.
Proof.
  intros Hok (c & rest & ->) Horder Hbefore Hj Hreply.
  rewrite findNearbyEvents_ranked by exact Hok.
  unfold JS.promiseAll. simpl snd. rewrite Horder.
  rewrite (firstRejected_app before after j _ reason); [reflexivity | |].
  - intros i Hi e' Hnth. rewrite nth_error_scoring in Hnth.
    destruct (nth_error (enriched net origin) i); [| discriminate].
    destruct (Hbefore i Hi) as [content Hc]. rewrite Hc in Hnth. discriminate.
  - rewrite nth_error_scoring.
    destruct (nth_error (enriched net origin) j) as [event |] eqn:Hev.
    + rewrite Hreply. reflexivity.
    + apply nth_error_None in Hev. unfold enriched in Hev.
      rewrite length_map in Hev. lia.
Qed.

(** X8.  A fulfilled call neither drops, duplicates nor invents an event:
    with their [matchScore] taken off, the returned events are a
    rearrangement of the events built from the feed's nodes, so there are as
    many of them as nodes. *)
Theorem no_event_lost_or_invented
    (net : Network) (origin : Coordinates) (numEvents : option JS.number)
    (interests : option string) (events : list MeetupEvent) :
  snd (findNearbyEvents net origin numEvents interests) = JS.Resolved events ->
  Permutation (List.map withoutMatchScore events)
              (List.map (toEvent origin) (Feed.edges (JS.json (meetup net)))) /\
  List.length events = List.length (Feed.edges (JS.json (meetup net))).
Proof.
  intros Hres.
  assert (Hperm : Permutation (List.map withoutMatchScore events)
                              (enriched net origin)).
  { destruct (findNearbyEvents_resolved _ _ _ _ _ Hres)
      as (_ & [(_ & ->) | (_ & scored & Hscored & ->)]).
    - rewrite (map_ext_in withoutMatchScore (fun e => e)), map_id;
        [apply Permutation_refl |].
      intros e He. apply withoutMatchScore_unscored.
      eapply enriched_unscored. exact He.
    - eapply Permutation_trans; [apply Permutation_map, sort_permutation |].
      rewrite (scoredFrom_erase _ _ _ Hscored); [apply Permutation_refl |].
      intros e. apply enriched_unscored. }
  split; [exact Hperm |].
  apply Permutation_length in Hperm.
  unfold enriched in Hperm. rewrite !length_map in Hperm. exact Hperm.
Qed.

(** X10.  The ranking is the stable order by decreasing [matchScore || 0]:
    in the result no event has a smaller key than a later one, events of one
    key are in the order of the scored sequence, and the result is the only
    arrangement with these two properties.  An unparsed reply ([NaN]) thus
    ranks with the events rated 0. *)
Theorem ranking_is_the_stable_order_by_key
    (net : Network) (origin : Coordinates) (numEvents : option JS.number)
    (interests : option string) (events : list MeetupEvent) :
  supplied interests ->
  snd (findNearbyEvents net origin numEvents interests) = JS.Resolved events ->
  exists scored,
    scoredFrom net (enriched net origin) scored /\
    StronglySorted (fun a b => JS.ge (key a) (key b) = true) events /\
    (forall k, filter (sameKey k) events = filter (sameKey k) scored) /\
    forall other,
      StronglySorted (fun a b => JS.ge (key a) (key b) = true) other ->
      (forall k, filter (sameKey k) other = filter (sameKey k) scored) ->
      other = events.
Proof.
  intros Hsup Hres.
  destruct (findNearbyEvents_resolved _ _ _ _ _ Hres)
    as (_ & [(Hnone & _) | (_ & scored & Hscored & ->)]); [contradiction |].
  exists scored. split; [exact Hscored |].
  split; [apply sort_byMatchScore_sorted |].
  split; [intros k; apply sort_byMatchScore_keeps_key_class |].
  intros other Hsorted Hstable. apply sorted_stable_unique.
  - exact Hsorted.
  - apply sort_byMatchScore_sorted.
  - intros k. rewrite sort_byMatchScore_keeps_key_class. apply Hstable.
Qed.

(** X11.  When all returned events have the same key (for instance because
    every reply was rated 0 or could not be parsed), the ranking keeps the
    order of the feed. *)
Theorem equal_keys_keep_feed_order
    (net : Network) (origin : Coordinates) (numEvents : option JS.number)
    (interests : option string) (events : list MeetupEvent) (k : JS.number) :
  supplied interests ->
  snd (findNearbyEvents net origin numEvents interests) = JS.Resolved events ->
  (forall e, In e events -> key e = k) ->
  List.map withoutMatchScore events =
  List.map (toEvent origin) (Feed.edges (JS.json (meetup net))).
Proof.
  intros Hsup Hres Hkey.
  destruct (findNearbyEvents_resolved _ _ _ _ _ Hres)
    as (_ & [(Hnone & _) | (_ & scored & Hscored & ->)]); [contradiction |].
  assert (Hsame : JS.sort byMatchScore scored = scored).
  { rewrite <- (filter_all (sameKey k) (JS.sort byMatchScore scored)).
    - rewrite sort_byMatchScore_keeps_key_class. apply filter_all.
      intros e He. unfold sameKey. rewrite Hkey; [apply eqbNumber_refl |].
      apply In_sort_byMatchScore. exact He.
    - intros e He. unfold sameKey. rewrite (Hkey e He). apply eqbNumber_refl. }
  rewrite Hsame.
  apply (scoredFrom_erase _ _ _ Hscored). intros e. apply enriched_unscored.
Qed.

End MorePipeline.

(** ** The client's configuration *)

(** X16.  A client's model is never the empty string: it is the configured
    model when one is given and not empty, and the default model
    otherwise, an empty configured model counting as none. *)
Theorem constructor_model_is_never_empty (config : MeetupClientConfig) :
  model (constructor config) <> "" /\
  (forall m, config_model config = Some m -> m <> "" ->
             model (constructor config) = m) /\
  (config_model config = None \/ config_model config = Some "" ->
   model (constructor config) = "meta-llama/llama-3.1-70b-instruct:free").
Proof.
  unfold constructor. cbn [model].
  destruct (config_model config) as [[| c configured] |].
  - split; [discriminate |]. split; [| reflexivity].
    intros m Hm Hne. injection Hm as <-. contradiction.
  - split; [discriminate |]. split.
    + intros m Hm _. injection Hm as <-. reflexivity.
    + intros [H | H]; discriminate.
  - split; [discriminate |]. split; [| reflexivity].
    intros m Hm. discriminate.
Qed.

(** ** The presentation layer *)

(** X12.  The colour of the match badge depends on the band of the score
    only: green from 90, emerald from 80, orange from 60 (the threshold at
    70 changes nothing), red below 60; a score that is [NaN] is red. *)
Theorem getMatchScoreColor_bands (score : JS.number) :
  Frontend.getMatchScoreColor score =
  match score with
  | JS.NaN => "bg-red-100 text-red-800"
  | JS.Infinity negative =>
      if negative then "bg-red-100 text-red-800" else "bg-green-100"
  | JS.Int z =>
      if 90 <=? z then "bg-green-100"
      else if 80 <=? z then "bg-emerald-100"
      else if 60 <=? z then "bg-orange-100"
      else "bg-red-100 text-red-800"
  end.
Proof.
  destruct score as [| [] | z]; try reflexivity.
  unfold Frontend.getMatchScoreColor, JS.ge.
  destruct (Z.leb_spec 90 z); [reflexivity |].
  destruct (Z.leb_spec 80 z); [reflexivity |].
  destruct (Z.leb_spec 70 z), (Z.leb_spec 60 z); try reflexivity; lia.
Qed.

Lemma toggleExpand_other (expanded : option string) (eventId : string) :
  expanded <> Some eventId ->
  Frontend.toggleExpand expanded eventId = Some eventId.
Proof.
  intros Hne. unfold Frontend.toggleExpand.
  destruct expanded as [current |]; [| reflexivity].
  destruct (String.eqb_spec current eventId) as [-> |]; [contradiction | reflexivity].
Qed.

Lemma toggleExpand_same (eventId : string) :
  Frontend.toggleExpand (Some eventId) eventId = None.
Proof. unfold Frontend.toggleExpand. rewrite String.eqb_refl. reflexivity. Qed.

(** X13.  Clicking one event of the list again and again expands and
    collapses it in turn: from a state in which it is not expanded, after an
    odd number of clicks it is the expanded event, and after an even number
    no event is expanded (an event that was expanded before stays
    collapsed). *)
Theorem repeated_clicks_alternate
    (expanded : option string) (eventId : string) (n : nat) :
  expanded <> Some eventId ->
  Frontend.clicks (repeat eventId (S n)) expanded =
  if Nat.even n then Some eventId else None.
Proof.
  intros Hne. unfold Frontend.clicks. cbn [repeat fold_left].
  rewrite (toggleExpand_other _ _ Hne). clear Hne expanded.
  assert (Hgen : forall m,
            fold_left Frontend.toggleExpand (repeat eventId m) (Some eventId) =
              (if Nat.even m then Some eventId else None) /\
            fold_left Frontend.toggleExpand (repeat eventId m) None =
              (if Nat.even m then None else Some eventId)).
  { induction m as [| m [IHsome IHnone]]; [split; reflexivity |].
    cbn [repeat fold_left]. rewrite toggleExpand_same.
    rewrite (toggleExpand_other None eventId) by discriminate.
    rewrite IHsome, IHnone, Nat.even_succ, <- Nat.negb_even.
    destruct (Nat.even m); split; reflexivity. }
  apply Hgen.
Qed.

(** X14.  When [handleSubmit] has run, the form is no longer loading and
    its inputs are untouched; after a success response the list holds the
    events of the payload and no error is shown; after any other response
    the list is empty and the error is the payload's [detail], or
    "Failed to fetch events" when there is none or it is empty, so the
    error shown is never empty. *)
Theorem handleSubmit_outcome
    (engineMessage : string) (answer : JS.Response Frontend.Payload)
    (s : Frontend.State) :
  let s' := snd (Frontend.handleSubmit engineMessage answer s) in
  Frontend.loading s' = false /\
  Frontend.zipCode s' = Frontend.zipCode s /\
  Frontend.interests s' = Frontend.interests s /\
  Frontend.selectedSources s' = Frontend.selectedSources s /\
  if JS.ok answer then
    Frontend.events s' = Frontend.payload_events (JS.json answer) /\
    Frontend.error s' = None
  else
    Frontend.events s' = [] /\
    Frontend.error s' =
      Some (Frontend.orString (Frontend.detail (JS.json answer))
              "Failed to fetch events") /\
    Frontend.error s' <> Some "".
Proof.
  unfold Frontend.handleSubmit, JS.tryCatch, JS.bind, JS.fetch.
  destruct (JS.ok answer); simpl; repeat split.
  destruct (Frontend.detail (JS.json answer)) as [[| c d] |]; discriminate.
Qed.

(** X15.  [handleSubmit] sends exactly one request, whatever the response:
    it carries the interests of the form, asks for 10 events and always
    names the coordinates (33.75, -84.39); the ZIP code and the selected
    sources of the form have no part in it. *)
Theorem handleSubmit_request
    (engineMessage : string) (answer : JS.Response Frontend.Payload)
    (s : Frontend.State) :
  fst (Frontend.handleSubmit engineMessage answer s) =
  [ {| Frontend.latitude := 33.75%float;
       Frontend.longitude := (-84.39)%float;
       Frontend.request_interests := Frontend.interests s;
       Frontend.num_events := JS.Int 10;
       Frontend.verbose := false |} ].
Proof.
  unfold Frontend.handleSubmit, JS.tryCatch, JS.bind, JS.fetch.
  assert (Hi : forall i, Frontend.orString (Some i) "" = i)
    by (intros [| c i]; reflexivity).
  destruct (JS.ok answer); cbn -[Frontend.orString]; rewrite Hi; reflexivity.
Qed.

(** ** The further properties on the samples *)

Lemma last_bracket_decides_sample :
  reply (completion "Between {10} and {74}, so {74}.") =
    JS.Resolved ("Between {10} and {74}, so " ++ "{" ++ "74" ++ "}.") /\
  noChar "{" "74" = true /\
  noChar "}" "74" = true /\
  closesBracket "}." = true /\
  snd (generateMatchRating (completion "Between {10} and {74}, so {74}.")
         jazzEvent "jazz concerts") =
  JS.Resolved (match "74" with
               | EmptyString => JS.Int 0
               | _ => JS.parseInt "74"
               end).
Proof.
  assert (Hreply : reply (completion "Between {10} and {74}, so {74}.") =
                   JS.Resolved ("Between {10} and {74}, so " ++ "{" ++ "74" ++ "}."))
    by reflexivity.
  assert (Hopen : noChar "{" "74" = true) by reflexivity.
  assert (Hclose : noChar "}" "74" = true) by reflexivity.
  assert (Htail : closesBracket "}." = true) by reflexivity.
  split; [exact Hreply |]. split; [exact Hopen |]. split; [exact Hclose |].
  split; [exact Htail |].
  exact (last_bracket_decides _ jazzEvent "jazz concerts" _ _ _
           Hreply Hopen Hclose Htail).
Defined.

Lemma bracketed_numeral_is_the_rating_sample :
  reply (completion "Too far away. { -5 points}") =
    JS.Resolved ("Too far away. " ++ "{" ++ " " ++ "-" ++ "5" ++ " points" ++ "}") /\
  allWhiteSpace " " = true /\
  ("-" = (if true then "-" else "") \/ (true = false /\ "-" = "+")) /\
  isDecimal "5" = true /\
  noLeadingDigit " points" = true /\
  noChar "{" " points" = true /\
  noChar "}" " points" = true /\
  closesBracket "}" = true /\
  snd (generateMatchRating (completion "Too far away. { -5 points}")
         jazzEvent "jazz concerts") =
  JS.Resolved (JS.toNumber ((if true then -1 else 1) * decimalValue "5")).
Proof.
  assert (Hreply : reply (completion "Too far away. { -5 points}") =
                   JS.Resolved ("Too far away. " ++ "{" ++ " " ++ "-" ++ "5"
                                ++ " points" ++ "}"))
    by reflexivity.
  assert (Hws : allWhiteSpace " " = true) by reflexivity.
  assert (Hsign : "-" = (if true then "-" else "") \/ (true = false /\ "-" = "+"))
    by (left; reflexivity).
  assert (Hdec : isDecimal "5" = true) by reflexivity.
  assert (Hlead : noLeadingDigit " points" = true) by reflexivity.
  assert (Hopen : noChar "{" " points" = true) by reflexivity.
  assert (Hclose : noChar "}" " points" = true) by reflexivity.
  assert (Htail : closesBracket "}" = true) by reflexivity.
  split; [exact Hreply |]. split; [exact Hws |]. split; [exact Hsign |].
  split; [exact Hdec |]. split; [exact Hlead |]. split; [exact Hopen |].
  split; [exact Hclose |]. split; [exact Htail |].
  exact (bracketed_numeral_is_the_rating _ jazzEvent "jazz concerts" _ _ _ _ _ _ true
           Hreply Hws Hsign Hdec Hlead Hopen Hclose Htail).
Defined.

Lemma reply_without_bracket_is_read_whole_sample :
  reply (completion "12 of 100") = JS.Resolved "12 of 100" /\
  noChar "{" "12 of 100" = true /\
  noChar "}" "12 of 100" = true /\
  snd (generateMatchRating (completion "12 of 100") jazzEvent "jazz concerts") =
  JS.Resolved (match "12 of 100" with
               | EmptyString => JS.Int 0
               | _ => JS.parseInt "12 of 100"
               end).
Proof.
  assert (Hreply : reply (completion "12 of 100") = JS.Resolved "12 of 100")
    by reflexivity.
  assert (Hopen : noChar "{" "12 of 100" = true) by reflexivity.
  assert (Hclose : noChar "}" "12 of 100" = true) by reflexivity.
  split; [exact Hreply |]. split; [exact Hopen |]. split; [exact Hclose |].
  exact (reply_without_bracket_is_read_whole _ jazzEvent "jazz concerts" _
           Hreply Hopen Hclose).
Defined.


Lemma first_settled_rejection_is_reported_sample :
  JS.ok (meetup halfScoredNet) = true /\
  supplied jazzConcerts /\
  settleOrder halfScoredNet = ([0%nat] ++ 1%nat :: [])%list /\
  (forall i, In i [0%nat] ->
     exists content, reply (openRouter halfScoredNet i) = JS.Resolved content) /\
  (1 < List.length (Feed.edges (JS.json (meetup halfScoredNet))))%nat /\
  reply (openRouter halfScoredNet 1) =
    JS.Rejected (JS.Err "OpenRouter API error: Internal Server Error") /\
  snd (findNearbyEvents (math := seriesMath) halfScoredNet atlanta None jazzConcerts)
    = JS.Rejected (JS.Err "OpenRouter API error: Internal Server Error").
Proof.
  assert (Hok : JS.ok (meetup halfScoredNet) = true) by reflexivity.
  assert (Hsup : supplied jazzConcerts) by (do 2 eexists; reflexivity).
  assert (Horder : settleOrder halfScoredNet = ([0%nat] ++ 1%nat :: [])%list)
    by reflexivity.
  assert (Hbefore : forall i, In i [0%nat] ->
            exists content, reply (openRouter halfScoredNet i) = JS.Resolved content)
    by (intros i [<- | []]; eexists; reflexivity).
  assert (Hlt : (1 < List.length (Feed.edges (JS.json (meetup halfScoredNet))))%nat)
    by (simpl; lia).
  assert (Hreply : reply (openRouter halfScoredNet 1) =
                   JS.Rejected (JS.Err "OpenRouter API error: Internal Server Error"))
    by reflexivity.
  split; [exact Hok |]. split; [exact Hsup |]. split; [exact Horder |].
  split; [exact Hbefore |]. split; [exact Hlt |]. split; [exact Hreply |].
  exact (first_settled_rejection_is_reported (math := seriesMath) halfScoredNet
           atlanta None jazzConcerts [0%nat] [] 1 _
           Hok Hsup Horder Hbefore Hlt Hreply).
Defined.

Lemma no_event_lost_or_invented_sample :
  snd (findNearbyEvents (math := seriesMath) rankedNet atlanta None jazzConcerts) =
    JS.Resolved [withMatchScore jazzEvent (JS.Int 85);
                 withMatchScore bookEvent (JS.Int 40)] /\
  Permutation
    (List.map withoutMatchScore
       [withMatchScore jazzEvent (JS.Int 85); withMatchScore bookEvent (JS.Int 40)])
    (List.map (toEvent (math := seriesMath) atlanta)
       (Feed.edges (JS.json (meetup rankedNet)))) /\
  List.length [withMatchScore jazzEvent (JS.Int 85);
               withMatchScore bookEvent (JS.Int 40)] =
  List.length (Feed.edges (JS.json (meetup rankedNet))).
Proof.
  assert (Hres : snd (findNearbyEvents (math := seriesMath) rankedNet atlanta None
                        jazzConcerts)
                 = JS.Resolved [withMatchScore jazzEvent (JS.Int 85);
                                withMatchScore bookEvent (JS.Int 40)])
    by (vm_compute; reflexivity).
  split; [exact Hres |].
  exact (no_event_lost_or_invented (math := seriesMath) rankedNet atlanta None
           jazzConcerts _ Hres).
Defined.

Lemma ranking_sorted_and_stable_sample :
  supplied jazzConcerts /\
  snd (findNearbyEvents (math := seriesMath) rankedNet atlanta None jazzConcerts) =
    JS.Resolved [withMatchScore jazzEvent (JS.Int 85);
                 withMatchScore bookEvent (JS.Int 40)] /\
  exists scored,
    scoredFrom rankedNet (enriched (math := seriesMath) rankedNet atlanta) scored /\
    Permutation scored
      [withMatchScore jazzEvent (JS.Int 85); withMatchScore bookEvent (JS.Int 40)] /\
    (forall s,
       filter (hasScore s)
         [withMatchScore jazzEvent (JS.Int 85); withMatchScore bookEvent (JS.Int 40)]
       = filter (hasScore s) scored) /\
    ((forall e,
        In e [withMatchScore jazzEvent (JS.Int 85);
              withMatchScore bookEvent (JS.Int 40)] ->
        matchScore e <> Some JS.NaN) ->
     descending [withMatchScore jazzEvent (JS.Int 85);
                 withMatchScore bookEvent (JS.Int 40)] = true).
Proof.
  assert (Hsup : supplied jazzConcerts) by (do 2 eexists; reflexivity).
  assert (Hres : snd (findNearbyEvents (math := seriesMath) rankedNet atlanta None
                        jazzConcerts)
                 = JS.Resolved [withMatchScore jazzEvent (JS.Int 85);
                                withMatchScore bookEvent (JS.Int 40)])
    by (vm_compute; reflexivity).
  split; [exact Hsup |]. split; [exact Hres |].
  exact (ranking_sorted_and_stable (math := seriesMath) rankedNet atlanta None
           jazzConcerts _ Hsup Hres).
Defined.

Lemma ranking_is_the_stable_order_by_key_sample :
  supplied jazzConcerts /\
  snd (findNearbyEvents (math := seriesMath) proseNet atlanta None jazzConcerts) =
    JS.Resolved [withMatchScore bookEvent (JS.Int 5);
                 withMatchScore jazzEvent JS.NaN] /\
  exists scored,
    scoredFrom proseNet (enriched (math := seriesMath) proseNet atlanta) scored /\
    StronglySorted (fun a b => JS.ge (key a) (key b) = true)
      [withMatchScore bookEvent (JS.Int 5); withMatchScore jazzEvent JS.NaN] /\
    (forall k,
       filter (sameKey k)
         [withMatchScore bookEvent (JS.Int 5); withMatchScore jazzEvent JS.NaN]
       = filter (sameKey k) scored) /\
    forall other,
      StronglySorted (fun a b => JS.ge (key a) (key b) = true) other ->
      (forall k, filter (sameKey k) other = filter (sameKey k) scored) ->
      other = [withMatchScore bookEvent (JS.Int 5); withMatchScore jazzEvent JS.NaN].
Proof.
  assert (Hsup : supplied jazzConcerts) by (do 2 eexists; reflexivity).
  assert (Hres : snd (findNearbyEvents (math := seriesMath) proseNet atlanta None
                        jazzConcerts)
                 = JS.Resolved [withMatchScore bookEvent (JS.Int 5);
                                withMatchScore jazzEvent JS.NaN])
    by (vm_compute; reflexivity).
  split; [exact Hsup |]. split; [exact Hres |].
  exact (ranking_is_the_stable_order_by_key (math := seriesMath) proseNet atlanta
           None jazzConcerts _ Hsup Hres).
Defined.

Lemma equal_keys_keep_feed_order_sample :
  supplied jazzConcerts /\
  snd (findNearbyEvents (math := seriesMath) tiedNet atlanta None jazzConcerts) =
    JS.Resolved [withMatchScore jazzEvent JS.NaN;
                 withMatchScore bookEvent (JS.Int 0)] /\
  (forall e,
     In e [withMatchScore jazzEvent JS.NaN; withMatchScore bookEvent (JS.Int 0)] ->
     key e = JS.Int 0) /\
  List.map withoutMatchScore
    [withMatchScore jazzEvent JS.NaN; withMatchScore bookEvent (JS.Int 0)] =
  List.map (toEvent (math := seriesMath) atlanta)
    (Feed.edges (JS.json (meetup tiedNet))).
Proof.
  assert (Hsup : supplied jazzConcerts) by (do 2 eexists; reflexivity).
  assert (Hres : snd (findNearbyEvents (math := seriesMath) tiedNet atlanta None
                        jazzConcerts)
                 = JS.Resolved [withMatchScore jazzEvent JS.NaN;
                                withMatchScore bookEvent (JS.Int 0)])
    by (vm_compute; reflexivity).
  assert (Hkey : forall e,
            In e [withMatchScore jazzEvent JS.NaN;
                  withMatchScore bookEvent (JS.Int 0)] ->
            key e = JS.Int 0)
    by (intros e [<- | [<- | []]]; reflexivity).
  split; [exact Hsup |]. split; [exact Hres |]. split; [exact Hkey |].
  exact (equal_keys_keep_feed_order (math := seriesMath) tiedNet atlanta None
           jazzConcerts _ (JS.Int 0) Hsup Hres Hkey).
Defined.

Lemma repeated_clicks_alternate_sample :
  Some "a" <> Some "b" /\
  Frontend.clicks (repeat "b" 3) (Some "a") =
  (if Nat.even 2 then Some "b" else None).
Proof.
  assert (Hne : Some "a" <> Some "b") by discriminate.
  split; [exact Hne |].
  exact (repeated_clicks_alternate (Some "a") "b" 2 Hne).
Defined.

Lemma constructor_model_is_never_empty_sample :
  config_model (mkMeetupClientConfig "key" (Some "openai/gpt-4o")) =
    Some "openai/gpt-4o" /\
  "openai/gpt-4o" <> "" /\
  model (constructor (mkMeetupClientConfig "key" (Some "openai/gpt-4o"))) =
    "openai/gpt-4o".
Proof.
  assert (Hm : config_model (mkMeetupClientConfig "key" (Some "openai/gpt-4o")) =
               Some "openai/gpt-4o") by reflexivity.
  assert (Hne : "openai/gpt-4o" <> "") by discriminate.
  split; [exact Hm |]. split; [exact Hne |].
  exact (proj1 (proj2 (constructor_model_is_never_empty
                         (mkMeetupClientConfig "key" (Some "openai/gpt-4o"))))
           "openai/gpt-4o" Hm Hne).
Defined.
